(** * A shallow embedding of the yar.go RPC client and its host-sync helper

    The client of [src/client/client.go] builds a fixed-width binary header,
    encodes the request body with a named codec ("packager"), posts it over
    HTTP (optionally gzip-compressed, optionally through a DNS-cache dialer)
    and decodes the answer.  The host-sync helper of [src/unnamed/part_000]
    publishes host lists to a Redis store, gated by a checksum map.

    Go strings and byte slices are both finite byte sequences; they are
    modelled as Rocq [string] (a list of 8-bit [ascii]), so that the Go
    conversions [string(b)] and [[]byte(s)] are the identity.  Unsigned
    32-bit values are [Z] with their wrap-around written as [mod 2^32]. *)

From Stdlib Require Import ZArith Lia Ascii String.
From stdpp Require Import base gmap strings list.

#[local] Set Warnings "-register-all".
Open Scope string_scope.
Open Scope Z_scope.

(* ------------------------------------------------------------------ *)
(** ** Byte helpers *)

Definition NUL : ascii := Ascii.zero.

(** [n] NUL bytes (the zero value of a Go byte array). *)
Fixpoint zeros (n : nat) : string :=
  match n with
  | O => EmptyString
  | S k => String NUL (zeros k)
  end.

(** The Go conversion [uint32(x)] of an [int]. *)
Definition uint32 (x : Z) : Z := x mod 2 ^ 32.

(** [len(s)] as a Go [int]. *)
Definition len (s : string) : Z := Z.of_nat (String.length s).

Definition byte_at (i : nat) (s : string) : Z :=
  match String.get i s with
  | Some c => Z.of_nat (nat_of_ascii c)
  | None => 0
  end.

Definition byte_of_Z (z : Z) : ascii := ascii_of_N (Z.to_N (z mod 256)).

(* ------------------------------------------------------------------ *)
(** ** The yar package (not under src/) *)

(** Modelled from the spec: the constants [yar.PackagerLength] (the 8-byte
    codec-name field) and [yar.ProtocolLength] (the header without the
    codec-name field: tag 4B, id 4B, provider 28B, credential 32B, body
    length 4B, i.e. 72 bytes, so that the "fixed header width" of §6 is 80). *)
Definition PackagerLength : Z := 8.
Definition ProtocolLength : Z := 72.

(** Modelled from the spec: [yar.StrToFixedBytes str n], the pad-or-truncate
    of §4.1/§9 (padding with NUL bytes, the zero byte of a Go array). *)
Definition StrToFixedBytes (str : string) (n : nat) : string :=
  substring 0 n str +:+ zeros (n - String.length str)%nat.

(** Modelled from the spec: the error kinds of §7 and [yar.Error]. *)
Inductive ErrorKind :=
  | ErrorParam | ErrorConfig | ErrorPackager | ErrorNetwork | ErrorResponse.

Record YarError := NewError { kind : ErrorKind; message : string }.

(** Modelled from the spec: [yar.Opt], the options of §3 (the credential is
    the field [ServiceName] that [initRequest] reads). *)
Record Opt := {
  Provider : string;
  ServiceName : string;
  MagicNumber : Z;
  Packager : string;
  Timeout : Z;
  RequestGzip : bool;
  AcceptGzip : bool;
  DNSCache : bool }.

(** Modelled from the spec: [yar.Header], the wire header of §6. *)
Record Header := {
  h_MagicNumber : Z;
  h_Id : Z;
  h_Provider : string;
  h_Token : string;
  h_Packager : string;
  h_BodyLength : Z }.

(** Opaque values ([interface{}]) as a dynamic value type. *)
Inductive Value :=
  | VNil
  | VBool (b : bool)
  | VInt (z : Z)
  | VStr (s : string)
  | VList (l : list Value)
  | VMap (l : list (string * Value)).

Record Request := {
  r_Id : Z;
  r_Protocol : Header;
  r_Method : string;
  r_Params : list Value }.

(** Modelled from the spec: [yar.Response] (status, error message, return
    value); [ERR_OKEY] is the OK status. *)
Record Response := {
  resp_Id : Z;
  Status : Z;
  Error : string;
  Retval : Value }.

Definition ERR_OKEY : Z := 0.

(** Modelled from the spec: [yar.NewHeader], all fields zero. *)
Definition NewHeader : Header := {|
  h_MagicNumber := 0; h_Id := 0; h_Provider := zeros 28; h_Token := zeros 32;
  h_Packager := zeros 8; h_BodyLength := 0 |}.

(** Modelled from the spec: [yar.NewRequest]; its correlation id is an input
    (it is generated by the yar package). *)
Definition NewRequest (id : Z) : Request := {|
  r_Id := id; r_Protocol := NewHeader; r_Method := ""; r_Params := [] |}.

Definition u32_be (z : Z) : string :=
  String (byte_of_Z (z / 2 ^ 24)) (String (byte_of_Z (z / 2 ^ 16))
    (String (byte_of_Z (z / 2 ^ 8)) (String (byte_of_Z z) EmptyString))).

Definition be32_at (i : nat) (s : string) : Z :=
  byte_at i s * 2 ^ 24 + byte_at (i + 1) s * 2 ^ 16
  + byte_at (i + 2) s * 2 ^ 8 + byte_at (i + 3) s.

(** Modelled from the spec: [Header.Bytes()], the fields in the order of
    the table of §6 (big-endian integers). *)
Definition header_bytes (h : Header) : string :=
  u32_be (h_MagicNumber h) +:+ u32_be (h_Id h) +:+ h_Provider h
  +:+ h_Token h +:+ h_Packager h +:+ u32_be (h_BodyLength h).

(** Modelled from the spec: [Header.Init(buf)], the inverse reading. *)
Definition header_init (buf : string) : Header := {|
  h_MagicNumber := be32_at 0 buf;
  h_Id := be32_at 4 buf;
  h_Provider := substring 8 28 buf;
  h_Token := substring 36 32 buf;
  h_Packager := substring 68 8 buf;
  h_BodyLength := be32_at 76 buf |}.

(* ------------------------------------------------------------------ *)
(** ** The packager package (external codecs) *)

(** The codec registry: [packager.Pack(name, v)] and
    [packager.Unpack(name, data, &target)], by the kind of value encoded or
    decoded.  Decoding into a caller target returns the new content of the
    target together with the error, since a failed decode may have written
    part of it. *)
Record Packagers := {
  pack_request : string -> Request -> string + string;
  pack_value : string -> Value -> string + string;
  unpack_response : string -> string -> string + Response;
  unpack_value : string -> string -> Value -> Value * option string }.

(* ------------------------------------------------------------------ *)
(** ** The client *)

(** A socket transport of [transports.NewSock]: recorded, never used. *)
Record Sock := { sock_net : string; sock_addr : string }.

Record Client := {
  hostname : string;
  net : string;
  transport : option Sock;
  c_Opt : Opt }.

(** [for i := 0; i < len(dst); i++ { dst[i] = src[i] }] over a fixed array
    of length [n]; [src] always has [n] bytes here ([StrToFixedBytes]). *)
Fixpoint copy_fixed (n : nat) (src : string) : string :=
  match n with
  | O => EmptyString
  | S k =>
      match src with
      | String c rest => String c (copy_fixed k rest)
      | EmptyString => String NUL (copy_fixed k EmptyString)
      end
  end.

(** [client.initRequest(method, params...)]; a [None] params slice is the
    Go nil slice. *)
Definition initRequest (client : Client) (id : Z) (method : string)
    (params : option (list Value)) : YarError + Request :=
  let r := NewRequest id in
  let bs := StrToFixedBytes (Provider (c_Opt client)) 28 in
  let prov := copy_fixed 28 bs in
  let cs := StrToFixedBytes (ServiceName (c_Opt client)) 32 in
  let tok := copy_fixed 32 cs in
  if Z.of_nat (String.length method) <? 1 then
    inl (NewError ErrorParam "call empty method")
  else
    let ps := match params with None => [] | Some l => l end in
    inr {| r_Id := r_Id r;
           r_Protocol := {| h_MagicNumber := MagicNumber (c_Opt client);
                            h_Id := r_Id r;
                            h_Provider := prov;
                            h_Token := tok;
                            h_Packager := h_Packager (r_Protocol r);
                            h_BodyLength := h_BodyLength (r_Protocol r) |};
           r_Method := method;
           r_Params := ps |}.

(** The [[8]byte] array filled from [sendPackager] by the range loop. *)
Definition fill8 (s : string) : string := copy_fixed 8 s.

(** [client.packRequest(r)]: returns the request with its header packager
    field set (the code mutates [r]) and the encoded body. *)
Definition packRequest (pk : Packagers) (client : Client) (r : Request)
    : YarError + (Request * string) :=
  let packagerName := Packager (c_Opt client) in
  let sendPackager :=
    if Z.of_nat (String.length packagerName) <? PackagerLength then packagerName
    else substring 0 (Z.to_nat PackagerLength) packagerName in
  let p := fill8 sendPackager in
  let hd := r_Protocol r in
  let r' := {| r_Id := r_Id r;
               r_Protocol := {| h_MagicNumber := h_MagicNumber hd; h_Id := h_Id hd;
                                h_Provider := h_Provider hd; h_Token := h_Token hd;
                                h_Packager := p; h_BodyLength := h_BodyLength hd |};
               r_Method := r_Method r;
               r_Params := r_Params r |} in
  match pack_request pk sendPackager r' with
  | inl err => inl (NewError ErrorPackager err)
  | inr pack => inr (r', pack)
  end.

(** [client.readResponse(reader, ret)]: the reader is the in-memory buffer
    [allBody] (a [bytes.Buffer], whose [ReadAll] never fails); [ret] is the
    caller's target, [None] for a nil target, [Some v] for a pointer to a
    value [v].  The result is the returned error and the target's content
    afterwards. *)
Definition readResponse (pk : Packagers) (client : Client) (allBody : string)
    (ret : option Value) : option YarError * option Value :=
  let hw := ProtocolLength + PackagerLength in
  if len allBody <? hw then
    (Some (NewError ErrorResponse ("Response Parse Error:" +:+ allBody)), ret)
  else
    let protocolBuffer := substring 0 (Z.to_nat hw) allBody in
    let protocol := header_init protocolBuffer in
    let bodyLength := uint32 (h_BodyLength protocol - PackagerLength) in
    if uint32 (len allBody - hw) <? bodyLength then
      (Some (NewError ErrorResponse ("Response Content Error:" +:+ allBody)), ret)
    else
      let bodyBuffer :=
        substring (Z.to_nat hw) (String.length allBody - Z.to_nat hw)%nat allBody in
      let name := Packager (c_Opt client) in
      match unpack_response pk name bodyBuffer with
      | inl err => (Some (NewError ErrorPackager ("Unpack Error:" +:+ err)), ret)
      | inr response =>
          if negb (Status response =? ERR_OKEY) then
            (Some (NewError ErrorResponse (Error response)), ret)
          else
            match ret with
            | None => (None, None)
            | Some v =>
                match pack_value pk name (Retval response) with
                | inl err =>
                    (Some (NewError ErrorPackager
                       ("pack response retval error:" +:+ err +:+ " " +:+ allBody)), ret)
                | inr packData =>
                    let '(v', err) := unpack_value pk name packData v in
                    match err with
                    | Some e =>
                        (Some (NewError ErrorPackager
                           ("pack response retval error:" +:+ e +:+ " " +:+ allBody)),
                         Some v')
                    | None => (None, Some v')
                    end
                end
            end
      end.

(** The body length claimed by the header of a response payload, and the
    bytes after the header, as [readResponse] computes them. *)
Definition claimed_body_length (allBody : string) : Z :=
  h_BodyLength (header_init
    (substring 0 (Z.to_nat (ProtocolLength + PackagerLength)) allBody)).

Definition body_buffer (allBody : string) : string :=
  substring (Z.to_nat (ProtocolLength + PackagerLength))
    (String.length allBody - Z.to_nat (ProtocolLength + PackagerLength))%nat allBody.

(* ------------------------------------------------------------------ *)
(** ** Effects: the network, as a trace of events *)

Record HttpRequest := {
  req_uri : string;
  req_method : string;
  req_body : string;
  req_headers : list (string * string);
  req_close : bool }.

Record HttpResponse := {
  hresp_headers : list (string * string);
  hresp_body : string }.

(** Observable actions of a call: the write of a shared handle's
    [ReadTimeout], a resolver lookup, a connection attempt, and a request
    written on an open connection. *)
Inductive Event :=
  | ESetReadTimeout (dns : bool) (ms : Z)
  | ELookup (host : string)
  | EDial (network addr : string)
  | ESend (conn : string) (req : HttpRequest).

(** A writer monad over the trace of events. *)
Definition M (A : Type) : Type := (A * list Event)%type.

#[local] Instance M_ret : MRet M := fun A x => (x, []).
#[local] Instance M_bind : MBind M := fun A B k m =>
  let '(a, t1) := m in let '(b, t2) := k a in (b, List.app t1 t2).

Definition emit (e : Event) : M unit := (tt, [e]).

(** The world outside the repository: gzip, the Go/fasthttp network stack
    and the DNS-cache resolver [globalResolver]. *)
Record Env := {
  gzip_compress : string -> string + string;
  body_gunzip : string -> string + string;
  uri_addr : string -> string;
  lookup : string -> list string * option string;
  net_dial : string -> string -> string + string;
  exchange : Z -> string -> HttpRequest -> string + HttpResponse }.

(** [strings.LastIndex(s, string(c))] for a one-byte separator. *)
Fixpoint last_index (c : ascii) (s : string) : option nat :=
  match s with
  | EmptyString => None
  | String d rest =>
      match last_index c rest with
      | Some i => Some (S i)
      | None => if ascii_dec c d then Some O else None
      end
  end.

(** [dnsCacheHttpClient.Dial] of [init()]: the resolved address list is
    [ips] (in its [String()] form).  An address without ':' would make the
    Go slice expression panic; fasthttp always dials "host:port", and the
    model reports that case as a failed dial. *)
Definition dnsDial (env : Env) (address : string) : M (string + string) :=
  match last_index ":"%char address with
  | None => mret (inl "slice bounds out of range")
  | Some separator =>
      let host := substring 0 separator address in
      let port := substring separator (String.length address - separator) address in
      emit (ELookup host);;
      let '(ips, err) := lookup env host in
      match err with
      | Some e => mret (inl ("Lookup Error:" +:+ e))
      | None =>
          match ips with
          | [] => mret (inl "Lookup Error: No IP Resolver Result Found")
          | ip :: _ =>
              emit (EDial "tcp" (ip +:+ port));;
              mret (net_dial env "tcp" (ip +:+ port))
          end
      end
  end.

(** The default dialer of the plain handle. *)
Definition defaultDial (env : Env) (address : string) : M (string + string) :=
  emit (EDial "tcp" address);; mret (net_dial env "tcp" address).

(** [hClient.DoTimeout(&request, &resp, timeout)]: dial with the handle's
    dialer, then exchange the request on the connection. *)
Definition DoTimeout (env : Env) (dns : bool) (timeout : Z) (request : HttpRequest)
    : M (string + HttpResponse) :=
  let address := uri_addr env (req_uri request) in
  c ← (if dns then dnsDial env address else defaultDial env address);
  match c with
  | inl e => mret (inl e)
  | inr conn => emit (ESend conn request);; mret (exchange env timeout conn request)
  end.

(** [resp.Header.Peek(key)]: the first value, or empty. *)
Fixpoint header_peek (key : string) (hs : list (string * string)) : string :=
  match hs with
  | [] => ""
  | (k, v) :: rest => if String.eqb key k then v else header_peek key rest
  end.

(* ------------------------------------------------------------------ *)
(** ** [httpHandler] and [Call] *)

Definition set_body_length (h : Header) (n : Z) : Header := {|
  h_MagicNumber := h_MagicNumber h; h_Id := h_Id h; h_Provider := h_Provider h;
  h_Token := h_Token h; h_Packager := h_Packager h; h_BodyLength := n |}.

Definition set_protocol (r : Request) (h : Header) : Request := {|
  r_Id := r_Id r; r_Protocol := h; r_Method := r_Method r; r_Params := r_Params r |}.

(** Lines 212-227 of [httpHandler]: the request, the encoded body and the
    post buffer (header bytes followed by the body). *)
Definition http_post_buffer (pk : Packagers) (client : Client) (id : Z)
    (method : string) (params : option (list Value))
    : YarError + (Request * string * string) :=
  match initRequest client id method params with
  | inl err => inl err
  | inr r =>
      match packRequest pk client r with
      | inl err => inl err
      | inr (r1, packBody) =>
          let r2 := set_protocol r1
                      (set_body_length (r_Protocol r1)
                         (uint32 (len packBody + PackagerLength))) in
          inr (r2, packBody, header_bytes (r_Protocol r2) +:+ packBody)
      end
  end.

(** Lines 237-272 of [httpHandler]: the fasthttp request. *)
Definition http_request (env : Env) (client : Client) (post : string)
    : YarError + HttpRequest :=
  let opt := c_Opt client in
  let body :=
    if RequestGzip opt then
      match gzip_compress env post with
      | inl e => inl (NewError ErrorNetwork e)
      | inr b => inr b
      end
    else inr post in
  match body with
  | inl err => inl err
  | inr b =>
      inr {| req_uri := hostname client; req_method := "POST"; req_body := b;
             req_headers :=
               List.app
                 (if AcceptGzip opt then [("Accept-Encoding", "gzip")] else [])
                 (if RequestGzip opt then [("Content-Encoding", "gzip")] else []);
             req_close := true |}
  end.

(** Lines 282-292 of [httpHandler]: the body handed to [readResponse]. *)
Definition response_body (env : Env) (resp : HttpResponse) : string :=
  if String.eqb (header_peek "Content-Encoding" (hresp_headers resp)) "gzip" then
    match body_gunzip env (hresp_body resp) with
    | inr b => b
    | inl _ => hresp_body resp
    end
  else hresp_body resp.

Definition httpHandler (env : Env) (pk : Packagers) (client : Client) (id : Z)
    (method : string) (ret : option Value) (params : option (list Value))
    : M (option YarError * option Value) :=
  match http_post_buffer pk client id method params with
  | inl err => mret (Some err, ret)
  | inr (_, _, post) =>
      let opt := c_Opt client in
      emit (ESetReadTimeout (DNSCache opt) (Timeout opt));;
      match http_request env client post with
      | inl err => mret (Some err, ret)
      | inr request =>
          resp ← DoTimeout env (DNSCache opt) (Timeout opt) request;
          match resp with
          | inl e => mret (Some (NewError ErrorNetwork e), ret)
          | inr resp => mret (readResponse pk client (response_body env resp) ret)
          end
      end
  end.

Definition Call (env : Env) (pk : Packagers) (client : Client) (id : Z)
    (method : string) (ret : option Value) (params : option (list Value))
    : M (option YarError * option Value) :=
  if String.eqb (net client) "http" || String.eqb (net client) "https" then
    httpHandler env pk client id method ret params
  else mret (Some (NewError ErrorConfig "unsupported non http protocol"), ret).

(* ------------------------------------------------------------------ *)
(** ** Construction *)

(** [strings.HasPrefix(s, p)]. *)
Fixpoint has_prefix (p s : string) : bool :=
  match p, s with
  | EmptyString, _ => true
  | String a p', String b s' => if ascii_dec a b then has_prefix p' s' else false
  | String _ _, EmptyString => false
  end.

(** The text before the first "://". *)
Fixpoint scheme_of (s : string) : option string :=
  match s with
  | EmptyString => None
  | String c rest =>
      if has_prefix "://" s then Some EmptyString
      else option_map (String c) (scheme_of rest)
  end.

(** Modelled from the spec: [parseAddrNetName], accepting the schemes of §6
    (http, https, tcp, udp, unix). *)
Definition parseAddrNetName (addr : string) : string + string :=
  match scheme_of addr with
  | None => inl ("invalid address:" +:+ addr)
  | Some sc =>
      if existsb (String.eqb sc) ["http"; "https"; "tcp"; "udp"; "unix"]
      then inr sc else inl ("unsupported net:" +:+ sc)
  end.

(** Modelled from the spec: [yar.NewOpt()]; the spec gives no defaults, so
    the options of its Scenario A are used. *)
Definition NewOpt : Opt := {|
  Provider := ""; ServiceName := ""; MagicNumber := 2162158688;
  Packager := "json"; Timeout := 2000; RequestGzip := false;
  AcceptGzip := false; DNSCache := false |}.

(** Modelled from the spec: [transports.NewSock], a transport that only
    records its network and address (its error is discarded by [init]). *)
Definition NewSock (network address : string) : Sock :=
  {| sock_net := network; sock_addr := address |}.

(** [client.init()]. *)
Definition client_init (client : Client) : Client :=
  if existsb (String.eqb (net client)) ["tcp"; "udp"; "unix"] then
    {| hostname := hostname client; net := net client;
       transport := Some (NewSock (net client) (hostname client));
       c_Opt := c_Opt client |}
  else client.

Definition NewClient (addr : string) : YarError + Client :=
  match parseAddrNetName addr with
  | inl e => inl (NewError ErrorParam e)
  | inr netName =>
      inr (client_init {| hostname := addr; net := netName; transport := None;
                          c_Opt := NewOpt |})
  end.

(* ------------------------------------------------------------------ *)
(** ** The host-sync helper ([src/unnamed/part_000]) *)

(** Decoded JSON values ([interface{}] after [json.Unmarshal]). *)
Inductive JVal :=
  | JNull
  | JBool (b : bool)
  | JNum (z : Z)
  | JStr (s : string)
  | JArr (l : list JVal)
  | JObj (o : list (string * JVal)).

(** A decoded JSON object as a Go map: with duplicate keys the last wins. *)
Fixpoint obj_get (k : string) (o : list (string * JVal)) : option JVal :=
  match o with
  | [] => None
  | (k', v) :: rest =>
      match obj_get k rest with
      | Some w => Some w
      | None => if String.eqb k k' then Some v else None
      end
  end.

Definition hex_digit (n : N) : ascii :=
  if (n <? 10)%N then ascii_of_N (48 + n) else ascii_of_N (87 + n).

(** [hex.EncodeToString]. *)
Fixpoint hex_encode (s : string) : string :=
  match s with
  | EmptyString => EmptyString
  | String c rest =>
      let n := N_of_ascii c in
      String (hex_digit (n / 16)) (String (hex_digit (n mod 16)) (hex_encode rest))
  end.

Definition redisPrefix : string := "__yar_host_sync__:".

(** The package state: [hostCheckSum], whether [redisClient] is set, the
    Redis [SET] commands issued (key, value, expiry in seconds), and the
    server's replies to them: [redisSetErr n] is [ret.Err()] of the [n]-th
    [SET] issued ([None] when it succeeds). *)
Record SyncState := {
  hostCheckSum : gmap string string;
  redisConnected : bool;
  redisWrites : list (string * string * Z);
  redisSetErr : nat -> option string }.

Section HostSync.

(** [json.Marshal] of a string slice (a nil slice for the empty list) and
    [fmt.Sprint] of a decoded JSON value: library code. *)
Variable json_marshal : list string -> string.
Variable sprint : JVal -> string.

(** [SetHostListToRedis(pool, name, list)]; [json.Marshal] of a string
    slice does not fail, and the result is [ret.Err()] of the [SET]. *)
Definition SetHostListToRedis (st : SyncState) (pool name : string) (l : list string)
    : SyncState * option string :=
  if negb (redisConnected st) then (st, Some "Please Call SetRedisHost()")
  else
    let key := redisPrefix +:+ pool +:+ ":" +:+ name in
    ({| hostCheckSum := hostCheckSum st; redisConnected := redisConnected st;
        redisWrites := List.app (redisWrites st) [(key, json_marshal l, 3600 * 24 * 7)];
        redisSetErr := redisSetErr st |},
     redisSetErr st (List.length (redisWrites st))).

Definition set_checksum (st : SyncState) (key s : string) : SyncState := {|
  hostCheckSum := <[key := s]> (hostCheckSum st);
  redisConnected := redisConnected st; redisWrites := redisWrites st;
  redisSetErr := redisSetErr st |}.

(** The checksum of a host list: [hex.EncodeToString(json.Marshal(l))]. *)
Definition host_digest (l : list string) : string := hex_encode (json_marshal l).

(** The inner loop of lines 252-266 over the services of one pool. *)
Fixpoint sync_services (pool : string) (lst1 : list (string * list string))
    (st : SyncState) : SyncState :=
  match lst1 with
  | [] => st
  | (service, hostList) :: rest =>
      let key := pool +:+ "_" +:+ service in
      let ok := bool_decide (is_Some (hostCheckSum st !! key)) in
      let sum := default "" (hostCheckSum st !! key) in
      let s := host_digest hostList in
      if String.eqb sum s then sync_services pool rest st
      else if ok && String.eqb sum s then sync_services pool rest st
      else
        let st1 := fst (SetHostListToRedis st pool service hostList) in
        sync_services pool rest (set_checksum st1 key s)
  end.

(** Lines 250-268 of [SyncAllHostList]: the publication loop over the
    grouped lists, in the (unspecified) iteration order of the Go map. *)
Fixpoint sync_publish (list0 : list (string * list (string * list string)))
    (st : SyncState) : SyncState :=
  match list0 with
  | [] => st
  | (pool, lst1) :: rest => sync_publish rest (sync_services pool lst1 st)
  end.

(** The checksum-map keys one run of the loop looks up. *)
Definition service_keys (pool : string) (lst1 : list (string * list string))
    : list string :=
  map (fun e => pool +:+ "_" +:+ fst e) lst1.

Fixpoint sync_keys (list0 : list (string * list (string * list string))) : list string :=
  match list0 with
  | [] => []
  | (pool, lst1) :: rest => List.app (service_keys pool lst1) (sync_keys rest)
  end.

(** The host of one container (lines 103-118). *)
Definition item_host (item : list (string * JVal)) : option string :=
  match obj_get "Ports" item with
  | Some (JArr (JObj p :: _)) =>
      match obj_get "IP" p, obj_get "PublicPort" p with
      | Some ip, Some port => Some (sprint ip +:+ ":" +:+ sprint port)
      | _, _ => None
      end
  | _ => None
  end.

Fixpoint host_list (items : list (list (string * JVal))) : list string :=
  match items with
  | [] => []
  | item :: rest =>
      match item_host item with
      | Some h => h :: host_list rest
      | None => host_list rest
      end
  end.

(** [GetHostListFromDockerAPI(pool, name)]: [fetched] is the outcome of the
    HTTP query and of decoding its body into [[]map[string]interface{}]. *)
Definition GetHostListFromDockerAPI (dockerAPI : string) (st : SyncState)
    (pool name : string) (fetched : string + list (list (string * JVal)))
    : SyncState * (string + list string) :=
  if (Z.of_nat (String.length dockerAPI) <? 1) then
    (st, inl "Please Call SetDockerAPI()")
  else
    match fetched with
    | inl e => (st, inl e)
    | inr items =>
        let l := host_list items in
        (fst (SetHostListToRedis st pool name l), inr l)
    end.

End HostSync.

(* ------------------------------------------------------------------ *)
(** ** The rest of the host-sync package *)

(** Go's regexp class [\w]: ASCII letters, digits and the underscore. *)
Definition is_word (c : ascii) : bool :=
  let n := nat_of_ascii c in
  (Nat.leb 48 n && Nat.leb n 57) || (Nat.leb 65 n && Nat.leb n 90)
  || (Nat.leb 97 n && Nat.leb n 122) || Nat.eqb n 95.

(** The longest prefix of word characters (the greedy [\w+]). *)
Fixpoint word_prefix (s : string) : string :=
  match s with
  | String c rest => if is_word c then String c (word_prefix rest) else EmptyString
  | EmptyString => EmptyString
  end.

(** [strings.TrimPrefix] when the prefix is present. *)
Fixpoint strip_prefix (p s : string) : option string :=
  match p, s with
  | EmptyString, _ => Some s
  | String a p', String b s' => if ascii_dec a b then strip_prefix p' s' else None
  | String _ _, EmptyString => None
  end.

(** [p[0][1]] of [regexp.MustCompile(pool\=\=(\w+)).FindAllStringSubmatch(s, -1)]
    when [len(p) > 0]: the group of the leftmost match, i.e. the word run
    after the first occurrence of [pool==] that is followed by at least one
    word character.  (The pattern is ASCII, so scanning bytes finds the
    same matches as scanning runes.) *)
Fixpoint pool_match (s : string) : option string :=
  match s with
  | EmptyString => None
  | String _ rest =>
      match strip_prefix "pool==" s with
      | Some after =>
          match word_prefix after with
          | EmptyString => pool_match rest
          | w => Some w
          end
      | None => pool_match rest
      end
  end.

(** Lines 224-228 of [SyncAllHostList]. *)
Definition normalize_pool (pool : string) : string :=
  match pool_match pool with Some p => p | None => pool end.

(** [labels[k].(string)]. *)
Definition label_str (k : string) (labels : list (string * JVal)) : option string :=
  match obj_get k labels with Some (JStr s) => Some s | _ => None end.

(** Lines 202-228 of [SyncAllHostList]: the (pool, service) a container is
    grouped under, or [None] when the loop skips it. *)
Definition item_key (item : list (string * JVal)) : option (string * string) :=
  match obj_get "Labels" item with
  | Some (JObj labels) =>
      match label_str "com.docker.compose.service" labels,
            label_str "com.docker.swarm.constraints" labels with
      | Some service, Some pool =>
          let service :=
            match label_str "wxhost-service-name" labels with
            | Some w => if 0 <? len w then w else service
            | None => service
            end in
          Some (normalize_pool pool, service)
      | _, _ => None
      end
  | _ => None
  end.

(** The Redis database seen through the [SET] commands issued: a [GET]
    answers the value of the last [SET] of the key.  A single server is
    modelled, read within the week its keys live. *)
(** [SetRedisHost(host)]: a (new) client is set; the server's data stays. *)
Definition SetRedisHost (st : SyncState) (host : string) : SyncState := {|
  hostCheckSum := hostCheckSum st; redisConnected := true;
  redisWrites := redisWrites st; redisSetErr := redisSetErr st |}.

(** The orders in which the loop of lines 250-268 can visit the grouped
    map: Go picks the order of every [range] afresh, both the outer one over
    the pools and each inner one over the services of a pool. *)
Definition is_schedule (g : gmap string (gmap string (list string)))
    (list0 : list (string * list (string * list string))) : Prop :=
  Permutation (map fst list0) (map fst (map_to_list g)) /\
  forall pool lst1, In (pool, lst1) list0 ->
    exists m, g !! pool = Some m /\ Permutation lst1 (map_to_list m).

Section HostSyncAll.

Variable json_marshal : list string -> string.
Variable sprint : JVal -> string.
(** [json.Unmarshal] into a [[]string]: the decoded slice and the error. *)
Variable json_unmarshal : string -> list string * option string.
(** The reply of the Redis server to [GET key] at the time of the call: an
    error ([redis: nil] for a missing key, or a network or server error) or
    the stored value. *)
Variable redis_get : string -> string + string.

(** One iteration of the loop of lines 200-248 over the grouped map
    [list]. *)
Definition group_item (list0 : gmap string (gmap string (list string)))
    (item : list (string * JVal)) : gmap string (gmap string (list string)) :=
  match item_key item with
  | None => list0
  | Some (pool, service) =>
      let list1 :=
        if bool_decide (is_Some (list0 !! pool)) then list0 else <[pool := ∅]> list0 in
      match item_host sprint item with
      | Some h =>
          let m := default ∅ (list1 !! pool) in
          <[pool := <[service := List.app (default [] (m !! service)) [h]]> m]> list1
      | None => list1
      end
  end.

Definition group_hosts (items : list (list (string * JVal)))
    : gmap string (gmap string (list string)) :=
  fold_left group_item items ∅.

(** One order of the loop of lines 250-268 over the grouped map: the order
    of [map_to_list] for the pools and for the services of each pool. *)
Definition grouped_lists (g : gmap string (gmap string (list string)))
    : list (string * list (string * list string)) :=
  map (fun pm => (fst pm, map_to_list (snd pm))) (map_to_list g).

(** [SyncAllHostList()]: [fetched] is the outcome of the HTTP query of
    [dockerAPI/containers/json] and of decoding its body; [sched] is the
    order the run's [range] loops take over the grouped map (one satisfying
    [is_schedule]). *)
Definition SyncAllHostList
    (sched : gmap string (gmap string (list string)) -> list (string * list (string * list string)))
    (st : SyncState) (fetched : string + list (list (string * JVal)))
    : SyncState * option string :=
  match fetched with
  | inl e => (st, Some e)
  | inr items => (sync_publish json_marshal (sched (group_hosts items)) st, None)
  end.

(** [GetHostListFromRedis(pool, name)]. *)
Definition GetHostListFromRedis (st : SyncState) (pool name : string)
    : list string * option string :=
  if negb (redisConnected st) then ([], Some "Please Call SetRedisHost()")
  else
    let key := redisPrefix +:+ pool +:+ ":" +:+ name in
    match redis_get key with
    | inl e => ([], Some e)
    | inr val => json_unmarshal val
    end.

End HostSyncAll.

(* ------------------------------------------------------------------ *)
(** ** Concrete instances used by the examples *)

(** A toy codec: a request encodes as its method name; a response body
    starting with "E" decodes to a failed response carrying the rest as its
    message, any other body to a successful one returning the body as a
    string; a string value re-encodes as itself. *)
Definition demo_pk : Packagers := {|
  pack_request := fun _ r => inr (r_Method r);
  pack_value := fun _ v => match v with VStr s => inr s | _ => inl "unsupported value" end;
  unpack_response := fun _ data =>
    match data with
    | String "E" msg => inr {| resp_Id := 0; Status := 1; Error := msg; Retval := VNil |}
    | _ => inr {| resp_Id := 0; Status := ERR_OKEY; Error := ""; Retval := VStr data |}
    end;
  unpack_value := fun _ data _ => (VStr data, None) |}.

(** A network whose resolver answers [ips], whose peer answers [resp], and
    whose gunzip always fails. *)
Definition demo_env (ips : list string) (resp : HttpResponse) : Env := {|
  gzip_compress := fun s => inr s;
  body_gunzip := fun _ => inl "gzip: invalid header";
  uri_addr := fun _ => "svc.local:8080";
  lookup := fun _ => (ips, None);
  net_dial := fun _ a => inr a;
  exchange := fun _ _ _ => inr resp |}.

Definition demo_opt (dns : bool) : Opt := {|
  Provider := "svcA"; ServiceName := "tokenX"; MagicNumber := 2162158688;
  Packager := "json"; Timeout := 2000; RequestGzip := false;
  AcceptGzip := false; DNSCache := dns |}.

Definition demo_client (dns : bool) : Client := {|
  hostname := "http://svc.local:8080/rpc"; net := "http"; transport := None;
  c_Opt := demo_opt dns |}.

Definition demo_resp (body : string) : HttpResponse :=
  {| hresp_headers := []; hresp_body := body |}.

Definition demo_tcp_client : Client :=
  match NewClient "tcp://10.0.0.1:9000" with
  | inr c => c
  | inl _ => demo_client false
  end.

(** A codec whose request encoding is [2^32 - 8] bytes long (4 GiB). *)
Definition big_body : string := zeros (Z.to_nat (2 ^ 32 - 8)).

Definition big_pk : Packagers := {|
  pack_request := fun _ _ => inr big_body;
  pack_value := pack_value demo_pk;
  unpack_response := unpack_response demo_pk;
  unpack_value := unpack_value demo_pk |}.

(** A response frame: a header announcing [8 + length body], then [body]. *)
Definition frame (body : string) : string :=
  header_bytes (set_body_length NewHeader (len body + PackagerLength)) +:+ body.

(** A client that compresses its requests and accepts compressed
    answers. *)
Definition gzip_client : Client := {|
  hostname := "http://svc.local:8080/rpc"; net := "http"; transport := None;
  c_Opt := {| Provider := "svcA"; ServiceName := "tokenX"; MagicNumber := 2162158688;
              Packager := "json"; Timeout := 2000; RequestGzip := true;
              AcceptGzip := true; DNSCache := false |} |}.

(** A network whose gzip writer and dialer may fail. *)
Definition broken_env (gzip_ok dial_ok : bool) : Env := {|
  gzip_compress := fun s => if gzip_ok then inr s else inl "gzip: write error";
  body_gunzip := fun _ => inl "gzip: invalid header";
  uri_addr := fun _ => "svc.local:8080";
  lookup := fun _ => ([], None);
  net_dial := fun _ a => if dial_ok then inr a else inl "dial tcp: connection refused";
  exchange := fun _ _ _ => inr (demo_resp (frame "hi")) |}.

(** The double-quote character. *)
Definition dq : string := String (ascii_of_nat 34) EmptyString.

(** A container of the Docker API listing, with its labels and one
    published port. *)
Definition demo_container (service constraint ip : string) (port : Z) : list (string * JVal) :=
  [("Labels", JObj [("com.docker.compose.service", JStr service);
                    ("com.docker.swarm.constraints", JStr constraint)]);
   ("Ports", JArr [JObj [("IP", JStr ip); ("PublicPort", JNum port)]])].

Definition demo_sprint (v : JVal) : string :=
  match v with JStr s => s | JNum 80 => "80" | JNum 81 => "81" | _ => "?" end.

Definition demo_containers : list (list (string * JVal)) :=
  [demo_container "api" ("[" +:+ dq +:+ "pool==web" +:+ dq +:+ "]") "10.0.0.1" 80;
   demo_container "api" ("[" +:+ dq +:+ "pool==web" +:+ dq +:+ "]") "10.0.0.2" 81;
   [("Labels", JObj [("com.docker.compose.service", JStr "db")])]].

(** A client configured with the codec name [name]. *)
Definition named_client (name : string) : Client := {|
  hostname := "http://svc.local:8080/rpc"; net := "http"; transport := None;
  c_Opt := {| Provider := "svcA"; ServiceName := "tokenX"; MagicNumber := 2162158688;
              Packager := name; Timeout := 2000; RequestGzip := false;
              AcceptGzip := false; DNSCache := false |} |}.

(** A second order of the publication loop: pools and services in reverse
    [map_to_list] order. *)
Definition rev_lists (g : gmap string (gmap string (list string)))
    : list (string * list (string * list string)) :=
  rev (map (fun pm => (fst pm, rev (snd pm))) (grouped_lists g)).

(** Two pools, with two services in the pool [web]. *)
Definition demo_containers2 : list (list (string * JVal)) :=
  [demo_container "api" ("[" +:+ dq +:+ "pool==web" +:+ dq +:+ "]") "10.0.0.1" 80;
   demo_container "db" ("[" +:+ dq +:+ "pool==web" +:+ dq +:+ "]") "10.0.0.2" 81;
   demo_container "api" ("[" +:+ dq +:+ "pool==batch" +:+ dq +:+ "]") "10.0.0.3" 80].

Example frame_length : String.length (frame "hi") = 82%nat.
Proof. reflexivity. Qed.

Example readResponse_ok :
  readResponse demo_pk (demo_client false) (frame "hi") (Some VNil) = (None, Some (VStr "hi")).
Proof. reflexivity. Qed.

Example readResponse_status_error :
  readResponse demo_pk (demo_client false) (frame "Eboom") (Some VNil)
  = (Some (NewError ErrorResponse "boom"), Some VNil).
Proof. reflexivity. Qed.

Example readResponse_truncated :
  fst (readResponse demo_pk (demo_client false) (substring 0 81 (frame "hi")) None)
  = Some (NewError ErrorResponse ("Response Content Error:" +:+ substring 0 81 (frame "hi"))).
Proof. reflexivity. Qed.

Example call_scenario_A :
  fst (Call (demo_env [] {| hresp_headers := []; hresp_body := frame "hi" |})
            demo_pk (demo_client false) 7 "Echo" (Some VNil) (Some [VStr "hi"]))
  = (None, Some (VStr "hi")).
Proof. reflexivity. Qed.

Example call_dns_first :
  snd (Call (demo_env ["10.0.0.1"; "10.0.0.2"] {| hresp_headers := []; hresp_body := frame "hi" |})
            demo_pk (demo_client true) 7 "Echo" None None)
  = [ESetReadTimeout true 2000; ELookup "svc.local"; EDial "tcp" "10.0.0.1:8080";
     ESend "10.0.0.1:8080"
       (match http_post_buffer demo_pk (demo_client true) 7 "Echo" None with
        | inr (_, _, post) =>
            {| req_uri := "http://svc.local:8080/rpc"; req_method := "POST"; req_body := post;
               req_headers := []; req_close := true |}
        | inl _ => {| req_uri := ""; req_method := ""; req_body := ""; req_headers := [];
                      req_close := false |}
        end)].
Proof. reflexivity. Qed.

Example new_client_tcp :
  option_map net (match NewClient "tcp://10.0.0.1:9000" with inr c => Some c | inl _ => None end)
  = Some "tcp".
Proof. reflexivity. Qed.

(* ================================================================== *)
(** * Properties *)

(** ** Fixed-width fields *)

Lemma zeros_length (n : nat) : String.length (zeros n) = n.
Proof. induction n as [|n IH]; simpl; auto. Qed.

Lemma copy_fixed_length (n : nat) (s : string) : String.length (copy_fixed n s) = n.
Proof.
  revert s; induction n as [|n IH]; intros s; [reflexivity|].
  destruct s; simpl; rewrite IH; reflexivity.
Qed.

Lemma copy_fixed_self (s : string) : copy_fixed (String.length s) s = s.
Proof. induction s as [|c s IH]; simpl; [reflexivity| now rewrite IH]. Qed.

Lemma append_nil_l (b : string) : "" +:+ b = b.
Proof. reflexivity. Qed.

Lemma append_cons (c : ascii) (a b : string) : String c a +:+ b = String c (a +:+ b).
Proof. reflexivity. Qed.

Lemma copy_fixed_empty (n : nat) : copy_fixed n "" = zeros n.
Proof. induction n as [|n IHn]; [reflexivity|]. simpl. now rewrite IHn. Qed.

Lemma StrToFixedBytes_copy (s : string) (n : nat) : StrToFixedBytes s n = copy_fixed n s.
Proof.
  unfold StrToFixedBytes; revert s; induction n as [|n IH]; intros s.
  - destruct s; reflexivity.
  - destruct s as [|c s].
    + rewrite copy_fixed_empty. reflexivity.
    + simpl. rewrite append_cons. f_equal. apply IH.
Qed.

Lemma copy_fixed_get (n i : nat) (s : string) :
  (i < n)%nat ->
  String.get i (copy_fixed n s)
  = if (i <? String.length s)%nat then String.get i s else Some NUL.
Proof.
  revert i s; induction n as [|n IH]; intros i s Hi; [lia|].
  destruct s as [|c s], i as [|i]; simpl; try reflexivity.
  - rewrite IH by lia. destruct i; reflexivity.
  - apply IH; lia.
Qed.

Lemma StrToFixedBytes_length (s : string) (n : nat) :
  String.length (StrToFixedBytes s n) = n.
Proof. rewrite StrToFixedBytes_copy; apply copy_fixed_length. Qed.

Lemma copy_fixed_StrToFixedBytes (s : string) (n : nat) :
  copy_fixed n (StrToFixedBytes s n) = StrToFixedBytes s n.
Proof.
  rewrite <- (StrToFixedBytes_length s n) at 1. apply copy_fixed_self.
Qed.

Lemma len_lt_1 (s : string) : (Z.of_nat (String.length s) <? 1) = String.eqb s "".
Proof.
  destruct s as [|c s]; [reflexivity|].
  apply Z.ltb_ge. simpl String.length. lia.
Qed.

Lemma initRequest_inr (client : Client) (id : Z) (method : string)
    (params : option (list Value)) (r : Request) :
  initRequest client id method params = inr r ->
  method <> "" /\
  r_Protocol r = {| h_MagicNumber := MagicNumber (c_Opt client); h_Id := id;
                    h_Provider := StrToFixedBytes (Provider (c_Opt client)) 28;
                    h_Token := StrToFixedBytes (ServiceName (c_Opt client)) 32;
                    h_Packager := zeros 8; h_BodyLength := 0 |} /\
  r_Id r = id /\ r_Method r = method.
Proof.
  unfold initRequest. rewrite !copy_fixed_StrToFixedBytes, len_lt_1.
  destruct method as [|c m]; simpl; [discriminate|].
  intros H; injection H as <-. repeat split; discriminate.
Qed.

Lemma Call_empty_method_http env pk client id ret params :
  (net client = "http" \/ net client = "https") ->
  Call env pk client id "" ret params
  = ((Some (NewError ErrorParam "call empty method"), ret), []).
Proof.
  intros Hnet. unfold Call.
  assert (Hb : (String.eqb (net client) "http" || String.eqb (net client) "https")%bool = true)
    by (destruct Hnet as [-> | ->]; reflexivity).
  rewrite Hb. reflexivity.
Qed.

Lemma Call_non_http env pk client id method ret params :
  ~ (net client = "http" \/ net client = "https") ->
  Call env pk client id method ret params
  = ((Some (NewError ErrorConfig "unsupported non http protocol"), ret), []).
Proof.
  intros Hnet. unfold Call.
  destruct (String.eqb_spec (net client) "http"); [tauto|].
  destruct (String.eqb_spec (net client) "https"); [tauto|].
  reflexivity.
Qed.

(** C4 (amended): for every method and params, [initRequest] fails iff the
    method is empty, and then with a Param error; on success the provider and
    credential header fields are the configured strings padded with NUL or
    truncated to exactly 28 and 32 bytes.  A [Call] with an empty method
    sends nothing: on an http/https client it returns that Param error, on
    any other client the Config error of the scheme check. *)
Theorem initRequest_param_iff_empty (client : Client) (id : Z) (method : string)
    (params : option (list Value)) :
  ((exists e, initRequest client id method params = inl e) <-> method = "") /\
  (forall e, initRequest client id method params = inl e -> kind e = ErrorParam) /\
  (forall r, initRequest client id method params = inr r ->
     h_Provider (r_Protocol r) = StrToFixedBytes (Provider (c_Opt client)) 28 /\
     h_Token (r_Protocol r) = StrToFixedBytes (ServiceName (c_Opt client)) 32 /\
     String.length (h_Provider (r_Protocol r)) = 28%nat /\
     String.length (h_Token (r_Protocol r)) = 32%nat /\
     (forall i, (i < 28)%nat -> String.get i (h_Provider (r_Protocol r))
        = if (i <? String.length (Provider (c_Opt client)))%nat
          then String.get i (Provider (c_Opt client)) else Some NUL) /\
     (forall i, (i < 32)%nat -> String.get i (h_Token (r_Protocol r))
        = if (i <? String.length (ServiceName (c_Opt client)))%nat
          then String.get i (ServiceName (c_Opt client)) else Some NUL)) /\
  (forall env pk ret, (net client = "http" \/ net client = "https") ->
     Call env pk client id "" ret params
     = ((Some (NewError ErrorParam "call empty method"), ret), [])) /\
  (forall env pk ret, ~ (net client = "http" \/ net client = "https") ->
     Call env pk client id "" ret params
     = ((Some (NewError ErrorConfig "unsupported non http protocol"), ret), [])).
Proof.
  split; [|split; [|split; [|split]]].
  - split.
    + intros [e He]. destruct method as [|c m]; [reflexivity|].
      unfold initRequest in He; rewrite len_lt_1 in He; simpl in He; discriminate.
    + intros ->. eexists; reflexivity.
  - intros e He. destruct method as [|c m].
    + unfold initRequest in He; simpl in He. now injection He as <-.
    + unfold initRequest in He; rewrite len_lt_1 in He; simpl in He; discriminate.
  - intros r Hr. apply initRequest_inr in Hr as (_ & Hp & _ & _).
    rewrite Hp; simpl.
    rewrite !StrToFixedBytes_length, !StrToFixedBytes_copy.
    repeat split; intros i Hi; apply copy_fixed_get; exact Hi.
  - intros env pk ret Hnet. apply Call_empty_method_http; exact Hnet.
  - intros env pk ret Hnet. apply Call_non_http; exact Hnet.
Qed.

(** Witness of C4 at the empty method on an http client. *)
Lemma initRequest_param_iff_empty_witness :
  Call (demo_env [] (demo_resp "")) demo_pk (demo_client false) 1 "" None None
  = ((Some (NewError ErrorParam "call empty method"), None), []).
Proof.
  apply (proj1 (proj2 (proj2 (proj2
           (initRequest_param_iff_empty (demo_client false) 1 "" None))))).
  left; reflexivity.
Defined.

(** Counterexample to C4 as stated: on a tcp client a [Call] with an empty
    method returns the Config error, not the Param error. *)
Lemma initRequest_param_iff_empty_counterexample :
  ~ (forall env pk client id ret params,
       fst (fst (Call env pk client id "" ret params))
       = Some (NewError ErrorParam "call empty method")).
Proof.
  intros H.
  specialize (H (demo_env [] (demo_resp "")) demo_pk demo_tcp_client 0 None None).
  vm_compute in H. discriminate H.
Qed.

(** ** Construction and scheme dispatch *)

(** C6: an address with scheme tcp, udp or unix is accepted by [NewClient]
    (recording a socket transport), and every [Call] on the client returns
    the Config error at once, with an empty trace: no lookup, dial or send. *)
Theorem NewClient_sock_scheme_config_error (sc rest : string) :
  sc = "tcp" \/ sc = "udp" \/ sc = "unix" ->
  exists client,
    NewClient (sc +:+ "://" +:+ rest) = inr client /\
    net client = sc /\
    transport client = Some (NewSock sc (sc +:+ "://" +:+ rest)) /\
    forall env pk id method ret params,
      Call env pk client id method ret params
      = ((Some (NewError ErrorConfig "unsupported non http protocol"), ret), []).
Proof.
  intros Hsc.
  destruct Hsc as [-> | [-> | ->]];
    (eexists; split; [reflexivity|]; split; [reflexivity|]; split; [reflexivity|]);
    intros; apply Call_non_http; simpl; intros [H | H]; discriminate H.
Qed.

(** Witness of C6 at "tcp://10.0.0.1:9000". *)
Lemma NewClient_sock_scheme_config_error_witness :
  exists client,
    NewClient ("tcp" +:+ "://" +:+ "10.0.0.1:9000") = inr client /\
    net client = "tcp" /\
    transport client = Some (NewSock "tcp" ("tcp" +:+ "://" +:+ "10.0.0.1:9000")) /\
    forall env pk id method ret params,
      Call env pk client id method ret params
      = ((Some (NewError ErrorConfig "unsupported non http protocol"), ret), []).
Proof.
  apply (NewClient_sock_scheme_config_error "tcp" "10.0.0.1:9000").
  left; reflexivity.
Defined.

(** ** The body-length field of outgoing requests *)

Lemma http_post_buffer_inr pk client id method params r r1 pb :
  initRequest client id method params = inr r ->
  packRequest pk client r = inr (r1, pb) ->
  http_post_buffer pk client id method params
  = inr (set_protocol r1 (set_body_length (r_Protocol r1)
                            (uint32 (len pb + PackagerLength))),
         pb,
         header_bytes (set_body_length (r_Protocol r1) (uint32 (len pb + PackagerLength)))
         +:+ pb).
Proof. intros Hi Hp. unfold http_post_buffer. rewrite Hi, Hp. reflexivity. Qed.

(** C1 (amended): once [packRequest] has produced the encoded body [pb],
    [httpHandler] posts the header bytes followed by [pb], and the header's
    body-length field is [uint32(len(pb) + PackagerLength)], that is
    [(len pb + 8) mod 2^32]; it equals [len pb + 8] whenever the encoded body
    is shorter than [2^32 - 8] bytes. *)
Theorem http_body_length_field (pk : Packagers) (client : Client) (id : Z)
    (method : string) (params : option (list Value)) (r r1 r2 : Request)
    (pb pb' post : string) :
  initRequest client id method params = inr r ->
  packRequest pk client r = inr (r1, pb) ->
  http_post_buffer pk client id method params = inr (r2, pb', post) ->
  pb' = pb /\
  post = header_bytes (r_Protocol r2) +:+ pb /\
  h_BodyLength (r_Protocol r2) = (len pb + PackagerLength) mod 2 ^ 32 /\
  (len pb + PackagerLength < 2 ^ 32 ->
   h_BodyLength (r_Protocol r2) = len pb + PackagerLength).
Proof.
  intros Hi Hp Hb.
  rewrite (http_post_buffer_inr pk client id method params r r1 pb Hi Hp) in Hb.
  injection Hb as <- <- <-.
  split; [reflexivity|]. split; [reflexivity|].
  cbn [r_Protocol set_protocol h_BodyLength set_body_length]. unfold uint32.
  split; [reflexivity|].
  intros Hlt. apply Z.mod_small. split; [|exact Hlt].
  unfold len, PackagerLength. lia.
Qed.

(** Witness of C1: Scenario A's request. *)
Lemma http_body_length_field_witness :
  exists r r1 r2 pb post,
    initRequest (demo_client false) 1 "Echo" (Some [VStr "hi"]) = inr r /\
    packRequest demo_pk (demo_client false) r = inr (r1, pb) /\
    http_post_buffer demo_pk (demo_client false) 1 "Echo" (Some [VStr "hi"])
      = inr (r2, pb, post) /\
    h_BodyLength (r_Protocol r2) = len pb + PackagerLength.
Proof.
  do 5 eexists. split; [reflexivity|]. split; [reflexivity|]. split; [reflexivity|].
  refine (proj2 (proj2 (proj2 (http_body_length_field demo_pk (demo_client false) 1
            "Echo" (Some [VStr "hi"]) _ _ _ _ _ _ eq_refl eq_refl eq_refl))) _).
  vm_compute. reflexivity.
Defined.

Lemma big_body_len : len big_body = 2 ^ 32 - 8.
Proof.
  unfold len, big_body. rewrite zeros_length. apply Z2Nat.id.
  vm_compute. discriminate.
Qed.

(** Counterexample to C1 as stated: with an encoded body of [2^32 - 8]
    bytes the body-length field wraps to 0 instead of [2^32]. *)
Lemma http_body_length_field_counterexample :
  ~ (forall pk client id method params (r r1 r2 : Request) (pb pb' post : string),
       initRequest client id method params = inr r ->
       packRequest pk client r = inr (r1, pb) ->
       http_post_buffer pk client id method params = inr (r2, pb', post) ->
       h_BodyLength (r_Protocol r2) = len pb + PackagerLength).
Proof.
  intros H.
  destruct (initRequest (demo_client false) 1 "Echo" None) as [e|r] eqn:Hi.
  { vm_compute in Hi. discriminate Hi. }
  destruct (packRequest big_pk (demo_client false) r) as [e|[r1 pb]] eqn:Hp.
  { unfold packRequest in Hp. cbn -[big_body] in Hp. discriminate Hp. }
  assert (Hpb : pb = big_body).
  { unfold packRequest in Hp. cbn -[big_body] in Hp. now injection Hp as _ <-. }
  specialize (H big_pk (demo_client false) 1 "Echo" None r r1 _ pb pb _ Hi Hp
                (http_post_buffer_inr big_pk (demo_client false) 1 "Echo" None r r1 pb Hi Hp)).
  cbn [r_Protocol set_protocol h_BodyLength set_body_length] in H.
  rewrite Hpb, big_body_len in H. vm_compute in H. discriminate H.
Qed.

(** ** Response decoding *)

Lemma byte_at_bound (i : nat) (s : string) : 0 <= byte_at i s < 256.
Proof.
  unfold byte_at. destruct (String.get i s) as [c|]; [|lia].
  pose proof (nat_ascii_bounded c). lia.
Qed.

Lemma be32_at_bound (i : nat) (s : string) : 0 <= be32_at i s < 2 ^ 32.
Proof.
  unfold be32_at.
  pose proof (byte_at_bound i s). pose proof (byte_at_bound (i + 1) s).
  pose proof (byte_at_bound (i + 2) s). pose proof (byte_at_bound (i + 3) s).
  change (2 ^ 32) with 4294967296. change (2 ^ 24) with 16777216.
  change (2 ^ 16) with 65536. change (2 ^ 8) with 256. lia.
Qed.

Lemma claimed_body_length_bound (allBody : string) :
  0 <= claimed_body_length allBody < 2 ^ 32.
Proof. apply be32_at_bound. Qed.

Lemma len_nonneg (s : string) : 0 <= len s.
Proof. unfold len; lia. Qed.

Lemma uint32_small (x : Z) : 0 <= x < 2 ^ 32 -> uint32 x = x.
Proof. apply Z.mod_small. Qed.

Lemma append_assoc_str (a b c : string) : a +:+ (b +:+ c) = (a +:+ b) +:+ c.
Proof. induction a as [|x a IH]; [reflexivity|]. rewrite !append_cons, IH. reflexivity. Qed.

(** Unfolding [readResponse] down to its two guards. *)
Ltac open_readResponse :=
  unfold readResponse, claimed_body_length, body_buffer in *; cbv zeta.

(** Past both guards, [readResponse] is its decoding stage. *)
Lemma readResponse_guards_pass pk client allBody ret :
  ProtocolLength + PackagerLength <= len allBody ->
  uint32 (claimed_body_length allBody - PackagerLength)
    <= uint32 (len allBody - (ProtocolLength + PackagerLength)) ->
  readResponse pk client allBody ret =
  match unpack_response pk (Packager (c_Opt client)) (body_buffer allBody) with
  | inl err => (Some (NewError ErrorPackager ("Unpack Error:" +:+ err)), ret)
  | inr response =>
      if negb (Status response =? ERR_OKEY) then
        (Some (NewError ErrorResponse (Error response)), ret)
      else
        match ret with
        | None => (None, None)
        | Some v =>
            match pack_value pk (Packager (c_Opt client)) (Retval response) with
            | inl err =>
                (Some (NewError ErrorPackager
                   ("pack response retval error:" +:+ err +:+ " " +:+ allBody)), ret)
            | inr packData =>
                let '(v', err) := unpack_value pk (Packager (c_Opt client)) packData v in
                match err with
                | Some e =>
                    (Some (NewError ErrorPackager
                       ("pack response retval error:" +:+ e +:+ " " +:+ allBody)), Some v')
                | None => (None, Some v')
                end
            end
        end
  end.
Proof.
  intros H1 H2. open_readResponse.
  rewrite (proj2 (Z.ltb_ge _ _) H1), (proj2 (Z.ltb_ge _ _) H2). reflexivity.
Qed.

(** C2: [readResponse] returns a Response error, before any decoding, on a
    payload shorter than the 80-byte header width, and on a payload whose
    bytes after the header are fewer than the claimed body length minus the
    8-byte codec-name width; whenever one of its two guards rejects the
    payload, the result does not depend on the codecs at all. *)
Theorem readResponse_rejects_short_or_truncated (pk : Packagers) (client : Client)
    (allBody : string) (ret : option Value) :
  (len allBody < ProtocolLength + PackagerLength ->
   readResponse pk client allBody ret
   = (Some (NewError ErrorResponse ("Response Parse Error:" +:+ allBody)), ret)) /\
  (ProtocolLength + PackagerLength <= len allBody ->
   len allBody - (ProtocolLength + PackagerLength)
     < claimed_body_length allBody - PackagerLength ->
   readResponse pk client allBody ret
   = (Some (NewError ErrorResponse ("Response Content Error:" +:+ allBody)), ret)) /\
  (forall pk',
   len allBody < ProtocolLength + PackagerLength \/
   uint32 (len allBody - (ProtocolLength + PackagerLength))
     < uint32 (claimed_body_length allBody - PackagerLength) ->
   readResponse pk' client allBody ret = readResponse pk client allBody ret).
Proof.
  pose proof (claimed_body_length_bound allBody) as HB.
  split; [|split].
  - intros H1. open_readResponse. rewrite (proj2 (Z.ltb_lt _ _) H1). reflexivity.
  - intros H1 H2.
    assert (E1 : uint32 (len allBody - (ProtocolLength + PackagerLength))
                 = len allBody - (ProtocolLength + PackagerLength))
      by (apply uint32_small; unfold PackagerLength, ProtocolLength in *; lia).
    assert (E2 : uint32 (claimed_body_length allBody - PackagerLength)
                 = claimed_body_length allBody - PackagerLength)
      by (apply uint32_small; unfold PackagerLength, ProtocolLength in *; lia).
    rewrite <- E1, <- E2 in H2. open_readResponse.
    rewrite (proj2 (Z.ltb_ge _ _) H1), (proj2 (Z.ltb_lt _ _) H2). reflexivity.
  - intros pk' [H1 | H2]; open_readResponse.
    + rewrite (proj2 (Z.ltb_lt _ _) H1). reflexivity.
    + destruct (len allBody <? ProtocolLength + PackagerLength); [reflexivity|].
      rewrite (proj2 (Z.ltb_lt _ _) H2). reflexivity.
Qed.

(** Witness of C2: a frame announcing 2 body bytes cut after its first
    body byte. *)
Lemma readResponse_rejects_short_or_truncated_witness :
  readResponse demo_pk (demo_client false) (substring 0 81 (frame "hi")) None
  = (Some (NewError ErrorResponse
             ("Response Content Error:" +:+ substring 0 81 (frame "hi"))), None).
Proof.
  apply (proj1 (proj2 (readResponse_rejects_short_or_truncated demo_pk (demo_client false)
           (substring 0 81 (frame "hi")) None))); vm_compute; [discriminate|reflexivity].
Defined.

(** C10: on a payload shorter than [2^32] bytes whose header claims a body
    length below the 8-byte codec-name width, [readResponse] returns a
    Response error: [bodyLength - PackagerLength] wraps in unsigned 32-bit
    arithmetic to at least [2^32 - 8], more than the bytes present.  (The
    body slice [allBody[80:]] is only taken past the first guard, i.e. when
    at least 80 bytes are present.) *)
Theorem readResponse_small_body_length_rejected (pk : Packagers) (client : Client)
    (allBody : string) (ret : option Value) :
  len allBody < 2 ^ 32 ->
  claimed_body_length allBody < PackagerLength ->
  2 ^ 32 - PackagerLength <= uint32 (claimed_body_length allBody - PackagerLength) /\
  exists m, readResponse pk client allBody ret = (Some (NewError ErrorResponse m), ret).
Proof.
  intros Hlen Hbl.
  pose proof (claimed_body_length_bound allBody) as HB.
  assert (Ew : uint32 (claimed_body_length allBody - PackagerLength)
               = claimed_body_length allBody - PackagerLength + 2 ^ 32).
  { unfold uint32. symmetry. apply Z.mod_unique with (-1); unfold PackagerLength in *; lia. }
  split; [rewrite Ew; unfold PackagerLength in *; lia|].
  destruct (Z.ltb_spec (len allBody) (ProtocolLength + PackagerLength)) as [Hs|Hs].
  - eexists. apply (proj1 (readResponse_rejects_short_or_truncated pk client allBody ret) Hs).
  - assert (Er : uint32 (len allBody - (ProtocolLength + PackagerLength))
                 = len allBody - (ProtocolLength + PackagerLength))
      by (apply uint32_small; unfold PackagerLength, ProtocolLength in *; lia).
    assert (Hlt : uint32 (len allBody - (ProtocolLength + PackagerLength))
                  < uint32 (claimed_body_length allBody - PackagerLength))
      by (rewrite Er, Ew; unfold PackagerLength, ProtocolLength in *; lia).
    eexists. open_readResponse.
    rewrite (proj2 (Z.ltb_ge _ _) Hs), (proj2 (Z.ltb_lt _ _) Hlt). reflexivity.
Qed.

(** Witness of C10: a header announcing a body length of 3. *)
Lemma readResponse_small_body_length_rejected_witness :
  2 ^ 32 - PackagerLength
    <= uint32 (claimed_body_length (header_bytes (set_body_length NewHeader 3)) - PackagerLength) /\
  exists m, readResponse demo_pk (demo_client false)
              (header_bytes (set_body_length NewHeader 3)) None
            = (Some (NewError ErrorResponse m), None).
Proof.
  apply readResponse_small_body_length_rejected; vm_compute; reflexivity.
Defined.

(** What [Call] on an http/https client returns once the transport has
    delivered a response. *)
Lemma Call_http_response env pk client id method ret params r2 pb post req resp :
  (net client = "http" \/ net client = "https") ->
  http_post_buffer pk client id method params = inr (r2, pb, post) ->
  http_request env client post = inr req ->
  fst (DoTimeout env (DNSCache (c_Opt client)) (Timeout (c_Opt client)) req) = inr resp ->
  fst (Call env pk client id method ret params)
  = readResponse pk client (response_body env resp) ret.
Proof.
  intros Hnet Hb Hr Hd. unfold Call.
  assert (Hh : (String.eqb (net client) "http" || String.eqb (net client) "https")%bool = true)
    by (destruct Hnet as [-> | ->]; reflexivity).
  rewrite Hh. unfold httpHandler. rewrite Hb, Hr.
  destruct (DoTimeout env (DNSCache (c_Opt client)) (Timeout (c_Opt client)) req)
    as [res tr] eqn:Ed.
  simpl in Hd. subst res. cbn. reflexivity.
Qed.

(** C3: on an http/https client, when the peer's response passes both
    guards and decodes to an envelope whose status is not OK, [Call] returns
    a Response error whose message is exactly the envelope's error string,
    and the caller's target is returned unchanged. *)
Theorem Call_status_error_target_untouched (env : Env) (pk : Packagers) (client : Client)
    (id : Z) (method : string) (ret : option Value) (params : option (list Value))
    (r2 : Request) (pb post : string) (req : HttpRequest) (resp : HttpResponse)
    (b : string) (response : Response) :
  (net client = "http" \/ net client = "https") ->
  http_post_buffer pk client id method params = inr (r2, pb, post) ->
  http_request env client post = inr req ->
  fst (DoTimeout env (DNSCache (c_Opt client)) (Timeout (c_Opt client)) req) = inr resp ->
  response_body env resp = b ->
  ProtocolLength + PackagerLength <= len b ->
  uint32 (claimed_body_length b - PackagerLength)
    <= uint32 (len b - (ProtocolLength + PackagerLength)) ->
  unpack_response pk (Packager (c_Opt client)) (body_buffer b) = inr response ->
  Status response <> ERR_OKEY ->
  fst (Call env pk client id method ret params)
  = (Some (NewError ErrorResponse (Error response)), ret).
Proof.
  intros Hnet Hb Hr Hd Hbody H1 H2 Hu Hs.
  rewrite (Call_http_response env pk client id method ret params r2 pb post req resp
             Hnet Hb Hr Hd), Hbody.
  rewrite (readResponse_guards_pass pk client b ret H1 H2), Hu.
  apply Z.eqb_neq in Hs. rewrite Hs. reflexivity.
Qed.

(** Witness of C3: the peer answers a frame decoding to the error "boom". *)
Lemma Call_status_error_target_untouched_witness :
  fst (Call (demo_env [] (demo_resp (frame "Eboom"))) demo_pk (demo_client false) 7 "Echo"
         (Some VNil) None)
  = (Some (NewError ErrorResponse "boom"), Some VNil).
Proof.
  refine (Call_status_error_target_untouched (demo_env [] (demo_resp (frame "Eboom")))
            demo_pk (demo_client false) 7 "Echo" (Some VNil) None
            _ _ _ _ (demo_resp (frame "Eboom")) (frame "Eboom")
            {| resp_Id := 0; Status := 1; Error := "boom"; Retval := VNil |}
            (or_introl eq_refl) eq_refl eq_refl eq_refl eq_refl _ _ eq_refl _);
    vm_compute; discriminate.
Defined.

(** C5: on a response that passes both guards and decodes to an OK
    envelope, with a non-nil target [Some v], [readResponse] re-encodes the
    return value with the configured codec and decodes the result into the
    target; a failure of either stage is a Packager error whose message ends
    with the raw response bytes, and success leaves in the target the
    second decode's value. *)
Theorem readResponse_retval_two_stage (pk : Packagers) (client : Client)
    (allBody : string) (v : Value) (response : Response) :
  ProtocolLength + PackagerLength <= len allBody ->
  uint32 (claimed_body_length allBody - PackagerLength)
    <= uint32 (len allBody - (ProtocolLength + PackagerLength)) ->
  unpack_response pk (Packager (c_Opt client)) (body_buffer allBody) = inr response ->
  Status response = ERR_OKEY ->
  (forall e, pack_value pk (Packager (c_Opt client)) (Retval response) = inl e ->
     exists pre, readResponse pk client allBody (Some v)
                 = (Some (NewError ErrorPackager (pre +:+ allBody)), Some v)) /\
  (forall pd v' e, pack_value pk (Packager (c_Opt client)) (Retval response) = inr pd ->
     unpack_value pk (Packager (c_Opt client)) pd v = (v', Some e) ->
     exists pre, readResponse pk client allBody (Some v)
                 = (Some (NewError ErrorPackager (pre +:+ allBody)), Some v')) /\
  (forall pd v', pack_value pk (Packager (c_Opt client)) (Retval response) = inr pd ->
     unpack_value pk (Packager (c_Opt client)) pd v = (v', None) ->
     readResponse pk client allBody (Some v) = (None, Some v')).
Proof.
  intros H1 H2 Hu Hs.
  rewrite (readResponse_guards_pass pk client allBody (Some v) H1 H2), Hu.
  rewrite Hs. cbn [negb Z.eqb ERR_OKEY].
  split; [|split].
  - intros e He. rewrite He.
    exists ("pack response retval error:" +:+ e +:+ " ").
    rewrite <- !append_assoc_str. reflexivity.
  - intros pd v' e Hp Hv. rewrite Hp, Hv.
    exists ("pack response retval error:" +:+ e +:+ " ").
    rewrite <- !append_assoc_str. reflexivity.
  - intros pd v' Hp Hv. rewrite Hp, Hv. reflexivity.
Qed.

(** Witness of C5: Scenario A's answer "hi" lands in the target. *)
Lemma readResponse_retval_two_stage_witness :
  readResponse demo_pk (demo_client false) (frame "hi") (Some VNil) = (None, Some (VStr "hi")).
Proof.
  refine (proj2 (proj2 (readResponse_retval_two_stage demo_pk (demo_client false)
            (frame "hi") VNil
            {| resp_Id := 0; Status := ERR_OKEY; Error := ""; Retval := VStr "hi" |}
            _ _ eq_refl eq_refl)) "hi" (VStr "hi") eq_refl eq_refl);
    vm_compute; discriminate.
Defined.

(** ** Response decompression *)

(** C8: when the response says [Content-Encoding: gzip], [httpHandler]
    tries to gunzip the body; if that fails it decodes the raw body
    instead, so the call's outcome is exactly that of [readResponse] on the
    raw bytes (and on success, on the decompressed bytes). *)
Theorem Call_gunzip_failure_falls_back (env : Env) (pk : Packagers) (client : Client)
    (id : Z) (method : string) (ret : option Value) (params : option (list Value))
    (r2 : Request) (pb post : string) (req : HttpRequest) (resp : HttpResponse) :
  (net client = "http" \/ net client = "https") ->
  http_post_buffer pk client id method params = inr (r2, pb, post) ->
  http_request env client post = inr req ->
  fst (DoTimeout env (DNSCache (c_Opt client)) (Timeout (c_Opt client)) req) = inr resp ->
  header_peek "Content-Encoding" (hresp_headers resp) = "gzip" ->
  (forall e, body_gunzip env (hresp_body resp) = inl e ->
     fst (Call env pk client id method ret params)
     = readResponse pk client (hresp_body resp) ret) /\
  (forall b, body_gunzip env (hresp_body resp) = inr b ->
     fst (Call env pk client id method ret params) = readResponse pk client b ret).
Proof.
  intros Hnet Hb Hr Hd Hce.
  rewrite (Call_http_response env pk client id method ret params r2 pb post req resp
             Hnet Hb Hr Hd).
  unfold response_body. rewrite Hce. cbn [String.eqb].
  split; [intros e He | intros b Hg]; [rewrite He | rewrite Hg]; reflexivity.
Qed.

(** Witness of C8: a reply flagged as gzip whose body is a plain frame. *)
Lemma Call_gunzip_failure_falls_back_witness :
  fst (Call (demo_env [] {| hresp_headers := [("Content-Encoding", "gzip")];
                            hresp_body := frame "hi" |})
            demo_pk (demo_client false) 7 "Echo" (Some VNil) None)
  = readResponse demo_pk (demo_client false) (frame "hi") (Some VNil).
Proof.
  refine (proj1 (Call_gunzip_failure_falls_back
            (demo_env [] {| hresp_headers := [("Content-Encoding", "gzip")];
                            hresp_body := frame "hi" |})
            demo_pk (demo_client false) 7 "Echo" (Some VNil) None _ _ _ _
            {| hresp_headers := [("Content-Encoding", "gzip")]; hresp_body := frame "hi" |}
            (or_introl eq_refl) eq_refl eq_refl eq_refl eq_refl) _ eq_refl).
Defined.

(** ** The DNS-cache dialer *)

Lemma length_append_str (a b : string) :
  String.length (a +:+ b) = (String.length a + String.length b)%nat.
Proof. induction a as [|c a IH]; [reflexivity|]. rewrite append_cons. simpl. now rewrite IH. Qed.

Lemma substring_self (s : string) : substring 0 (String.length s) s = s.
Proof. induction s as [|c s IH]; [reflexivity|]. simpl. now rewrite IH. Qed.

Lemma substring_append_l (a b : string) : substring 0 (String.length a) (a +:+ b) = a.
Proof. induction a as [|c a IH]; [destruct b; reflexivity|]. rewrite append_cons. simpl. now rewrite IH. Qed.

Lemma substring_append_r (a b : string) (m : nat) :
  substring (String.length a) m (a +:+ b) = substring 0 m b.
Proof. induction a as [|c a IH]; [reflexivity|]. rewrite append_cons. simpl. exact IH. Qed.

Lemma last_index_host_port (host port : string) :
  last_index ":"%char port = None ->
  last_index ":"%char (host +:+ ":" +:+ port) = Some (String.length host).
Proof.
  intros Hp. induction host as [|c host IH].
  - rewrite append_nil_l. change (":" +:+ port) with (String ":"%char port).
    cbn [last_index]. rewrite Hp. reflexivity.
  - rewrite append_cons. cbn [last_index]. rewrite IH. reflexivity.
Qed.

Lemma dnsDial_host_port (env : Env) (host port : string) :
  last_index ":"%char port = None ->
  dnsDial env (host +:+ ":" +:+ port)
  = (emit (ELookup host);;
     let '(ips, err) := lookup env host in
     match err with
     | Some e => mret (inl ("Lookup Error:" +:+ e))
     | None =>
         match ips with
         | [] => mret (inl "Lookup Error: No IP Resolver Result Found")
         | ip :: _ =>
             emit (EDial "tcp" (ip +:+ ":" +:+ port));;
             mret (net_dial env "tcp" (ip +:+ ":" +:+ port))
         end
     end).
Proof.
  intros Hp. unfold dnsDial. rewrite (last_index_host_port host port Hp).
  rewrite substring_append_l, substring_append_r, length_append_str.
  replace (String.length host + String.length (":" +:+ port) - String.length host)%nat
    with (String.length (":" +:+ port)) by lia.
  rewrite substring_self. reflexivity.
Qed.

(** C7: on an http/https client in DNS-cache mode whose target is
    "host:port" (the port holding no ':'), a resolver answer with no
    address makes [Call] fail with a Network error after the lookup and
    before any dial or send; an answer [ip :: _] without error leads to
    exactly one dial, of [ip ++ ":" ++ port], the first address with the
    original port (then one send if it connects); a failed lookup dials
    nothing and fails with a Network error. *)
Theorem Call_dns_cache_first_address (env : Env) (pk : Packagers) (client : Client)
    (id : Z) (method : string) (ret : option Value) (params : option (list Value))
    (r2 : Request) (pb post : string) (req : HttpRequest) (host port : string) :
  (net client = "http" \/ net client = "https") ->
  DNSCache (c_Opt client) = true ->
  http_post_buffer pk client id method params = inr (r2, pb, post) ->
  http_request env client post = inr req ->
  uri_addr env (req_uri req) = host +:+ ":" +:+ port ->
  last_index ":"%char port = None ->
  (forall err, lookup env host = ([], err) ->
     exists e, Call env pk client id method ret params
       = ((Some (NewError ErrorNetwork e), ret),
          [ESetReadTimeout true (Timeout (c_Opt client)); ELookup host])) /\
  (forall ip ips, lookup env host = (ip :: ips, None) ->
     snd (Call env pk client id method ret params)
     = List.app
         [ESetReadTimeout true (Timeout (c_Opt client)); ELookup host;
          EDial "tcp" (ip +:+ ":" +:+ port)]
         (match net_dial env "tcp" (ip +:+ ":" +:+ port) with
          | inr conn => [ESend conn req]
          | inl _ => []
          end)) /\
  (forall ips e, lookup env host = (ips, Some e) ->
     exists e', Call env pk client id method ret params
       = ((Some (NewError ErrorNetwork e'), ret),
          [ESetReadTimeout true (Timeout (c_Opt client)); ELookup host])).
Proof.
  intros Hnet Hdns Hb Hr Ha Hp.
  assert (Hh : (String.eqb (net client) "http" || String.eqb (net client) "https")%bool = true)
    by (destruct Hnet as [-> | ->]; reflexivity).
  unfold Call. rewrite Hh. unfold httpHandler. rewrite Hb, Hr, Hdns.
  unfold DoTimeout. cbv zeta. rewrite Ha, (dnsDial_host_port env host port Hp).
  split; [|split].
  - intros err Hl. rewrite Hl. destruct err as [e|]; eexists; reflexivity.
  - intros ip ips Hl. rewrite Hl. cbn.
    destruct (net_dial env "tcp" (ip +:+ ":" +:+ port)) as [e|conn]; cbn; [reflexivity|].
    destruct (exchange env (Timeout (c_Opt client)) conn req); reflexivity.
  - intros ips e Hl. rewrite Hl. eexists; reflexivity.
Qed.

(** Witness of C7: the resolver answers two addresses; only the first is
    dialed. *)
Lemma Call_dns_cache_first_address_witness :
  snd (Call (demo_env ["10.0.0.1"; "10.0.0.2"] (demo_resp (frame "hi")))
            demo_pk (demo_client true) 7 "Echo" None None)
  = List.app
      [ESetReadTimeout true 2000; ELookup "svc.local"; EDial "tcp" ("10.0.0.1" +:+ ":" +:+ "8080")]
      (match net_dial (demo_env ["10.0.0.1"; "10.0.0.2"] (demo_resp (frame "hi")))
               "tcp" ("10.0.0.1" +:+ ":" +:+ "8080") with
       | inr conn =>
           [ESend conn (match http_post_buffer demo_pk (demo_client true) 7 "Echo" None with
                        | inr (_, _, post) =>
                            {| req_uri := "http://svc.local:8080/rpc"; req_method := "POST";
                               req_body := post; req_headers := []; req_close := true |}
                        | inl _ => {| req_uri := ""; req_method := ""; req_body := "";
                                      req_headers := []; req_close := false |}
                        end)]
       | inl _ => []
       end).
Proof.
  refine (proj1 (proj2 (Call_dns_cache_first_address
            (demo_env ["10.0.0.1"; "10.0.0.2"] (demo_resp (frame "hi")))
            demo_pk (demo_client true) 7 "Echo" None None _ _ _ _ "svc.local" "8080"
            (or_introl eq_refl) eq_refl eq_refl eq_refl eq_refl eq_refl)) "10.0.0.1" ["10.0.0.2"]
            eq_refl).
Defined.

(** ** Host-list publication ([SyncAllHostList], [GetHostListFromDockerAPI]) *)

Lemma NoDup_app_disjoint {A : Type} (l1 l2 : list A) (a : A) :
  List.NoDup (List.app l1 l2) -> In a l1 -> ~ In a l2.
Proof.
  induction l1 as [|x l1 IH]; intros Hnd Hin; [destruct Hin|].
  simpl in Hnd. apply NoDup_cons_iff in Hnd as [Hx Hnd].
  destruct Hin as [<- | Hin].
  - intros H2. apply Hx, in_or_app. right; exact H2.
  - exact (IH Hnd Hin).
Qed.

Lemma SetHostListToRedis_checksum jm st pool name l :
  hostCheckSum (fst (SetHostListToRedis jm st pool name l)) = hostCheckSum st.
Proof. unfold SetHostListToRedis. destruct (redisConnected st); reflexivity. Qed.

(** One service of the loop: skipped when its checksum is recorded, else
    written (if Redis is set) and recorded. *)
Lemma sync_services_cons jm pool svc hl rest st :
  sync_services jm pool ((svc, hl) :: rest) st
  = sync_services jm pool rest
      (if String.eqb (default "" (hostCheckSum st !! (pool +:+ "_" +:+ svc)))
                     (host_digest jm hl)
       then st
       else set_checksum (fst (SetHostListToRedis jm st pool svc hl))
              (pool +:+ "_" +:+ svc) (host_digest jm hl)).
Proof.
  cbn [sync_services].
  destruct (String.eqb _ _); [reflexivity|]. rewrite andb_false_r. reflexivity.
Qed.

Lemma sync_services_step_recorded jm pool svc hl st :
  default "" (hostCheckSum
    (if String.eqb (default "" (hostCheckSum st !! (pool +:+ "_" +:+ svc)))
                   (host_digest jm hl)
     then st
     else set_checksum (fst (SetHostListToRedis jm st pool svc hl))
            (pool +:+ "_" +:+ svc) (host_digest jm hl)) !! (pool +:+ "_" +:+ svc))
  = host_digest jm hl.
Proof.
  destruct (String.eqb_spec (default "" (hostCheckSum st !! (pool +:+ "_" +:+ svc)))
                            (host_digest jm hl)) as [E|E]; [exact E|].
  unfold set_checksum; cbn [hostCheckSum]. rewrite lookup_insert_eq. reflexivity.
Qed.

Lemma sync_services_step_other jm pool svc hl st k :
  pool +:+ "_" +:+ svc <> k ->
  hostCheckSum
    (if String.eqb (default "" (hostCheckSum st !! (pool +:+ "_" +:+ svc)))
                   (host_digest jm hl)
     then st
     else set_checksum (fst (SetHostListToRedis jm st pool svc hl))
            (pool +:+ "_" +:+ svc) (host_digest jm hl)) !! k
  = hostCheckSum st !! k.
Proof.
  intros Hk. destruct (String.eqb _ _); [reflexivity|].
  unfold set_checksum; cbn [hostCheckSum].
  rewrite lookup_insert_ne by exact Hk. now rewrite SetHostListToRedis_checksum.
Qed.

Lemma sync_services_lookup_other jm pool lst1 st k :
  ~ In k (service_keys pool lst1) ->
  hostCheckSum (sync_services jm pool lst1 st) !! k = hostCheckSum st !! k.
Proof.
  revert st; induction lst1 as [|[svc hl] rest IH]; intros st Hk; [reflexivity|].
  cbn [service_keys map fst In] in Hk. rewrite sync_services_cons.
  rewrite IH by (intro; apply Hk; right; assumption).
  apply sync_services_step_other. intro; apply Hk; left; assumption.
Qed.

Lemma sync_services_recorded jm pool lst1 st :
  List.NoDup (service_keys pool lst1) ->
  forall svc hl, In (svc, hl) lst1 ->
  default "" (hostCheckSum (sync_services jm pool lst1 st) !! (pool +:+ "_" +:+ svc))
  = host_digest jm hl.
Proof.
  revert st; induction lst1 as [|[svc0 hl0] rest IH]; intros st Hnd svc hl Hin;
    [destruct Hin|].
  cbn [service_keys map fst] in Hnd. apply NoDup_cons_iff in Hnd as [Hnot Hnd].
  rewrite sync_services_cons. destruct Hin as [Heq | Hin].
  - injection Heq as <- <-.
    rewrite sync_services_lookup_other by exact Hnot.
    apply sync_services_step_recorded.
  - apply IH; assumption.
Qed.

Lemma sync_services_all_recorded jm pool lst1 st :
  (forall svc hl, In (svc, hl) lst1 ->
     default "" (hostCheckSum st !! (pool +:+ "_" +:+ svc)) = host_digest jm hl) ->
  sync_services jm pool lst1 st = st.
Proof.
  induction lst1 as [|[svc hl] rest IH]; intros Hall; [reflexivity|].
  rewrite sync_services_cons.
  rewrite (proj2 (String.eqb_eq _ _) (Hall svc hl (or_introl eq_refl))).
  apply IH. intros s h Hin. apply Hall. right; exact Hin.
Qed.

Lemma sync_publish_lookup_other jm list0 st k :
  ~ In k (sync_keys list0) ->
  hostCheckSum (sync_publish jm list0 st) !! k = hostCheckSum st !! k.
Proof.
  revert st; induction list0 as [|[pool lst1] rest IH]; intros st Hk; [reflexivity|].
  cbn [sync_publish]. cbn [sync_keys] in Hk.
  rewrite IH by (intro; apply Hk, in_or_app; right; assumption).
  apply sync_services_lookup_other. intro; apply Hk, in_or_app; left; assumption.
Qed.

Lemma sync_publish_recorded jm list0 st :
  List.NoDup (sync_keys list0) ->
  forall pool lst1 svc hl, In (pool, lst1) list0 -> In (svc, hl) lst1 ->
  default "" (hostCheckSum (sync_publish jm list0 st) !! (pool +:+ "_" +:+ svc))
  = host_digest jm hl.
Proof.
  revert st; induction list0 as [|[pool0 l0] rest IH];
    intros st Hnd pool lst1 svc hl Hin Hin'; [destruct Hin|].
  cbn [sync_keys] in Hnd. cbn [sync_publish].
  destruct Hin as [Heq | Hin].
  - injection Heq as <- <-.
    assert (Hk : In (pool0 +:+ "_" +:+ svc) (service_keys pool0 l0)).
    { unfold service_keys. apply (in_map (fun e => pool0 +:+ "_" +:+ fst e) l0 (svc, hl)).
      exact Hin'. }
    rewrite sync_publish_lookup_other by exact (NoDup_app_disjoint _ _ _ Hnd Hk).
    apply sync_services_recorded; [exact (NoDup_app_remove_r _ _ Hnd) | exact Hin'].
  - apply IH with lst1; [exact (NoDup_app_remove_l _ _ Hnd) | exact Hin | exact Hin'].
Qed.

Lemma sync_publish_all_recorded jm list0 st :
  (forall pool lst1 svc hl, In (pool, lst1) list0 -> In (svc, hl) lst1 ->
     default "" (hostCheckSum st !! (pool +:+ "_" +:+ svc)) = host_digest jm hl) ->
  sync_publish jm list0 st = st.
Proof.
  revert st; induction list0 as [|[pool lst1] rest IH]; intros st Hall; [reflexivity|].
  cbn [sync_publish].
  rewrite sync_services_all_recorded
    by (intros svc hl Hin; apply (Hall pool lst1); [left; reflexivity | exact Hin]).
  apply IH. intros p l s h Hin Hin'. apply (Hall p l); [right; exact Hin | exact Hin'].
Qed.

Lemma schedule_in g list0 pool lst1 svc hl :
  is_schedule g list0 -> In (pool, lst1) list0 -> In (svc, hl) lst1 ->
  (g !! pool) ≫= (fun m => m !! svc) = Some hl.
Proof.
  intros [_ Hs] Hin Hin'. destruct (Hs pool lst1 Hin) as [m [Hm Hp]].
  rewrite Hm. cbn. apply elem_of_map_to_list. apply list_elem_of_In.
  exact (Permutation_in _ Hp Hin').
Qed.

Lemma schedule_cover g l1 l2 pool lst1 svc hl :
  is_schedule g l1 -> is_schedule g l2 -> In (pool, lst1) l2 -> In (svc, hl) lst1 ->
  exists lst1', In (pool, lst1') l1 /\ In (svc, hl) lst1'.
Proof.
  intros [Hp1 Hs1] [Hp2 Hs2] Hin Hin'.
  assert (Hk : In pool (map fst l1)).
  { apply (Permutation_in _ (Permutation_sym Hp1)). apply (Permutation_in _ Hp2).
    apply in_map_iff. exists (pool, lst1). split; [reflexivity|exact Hin]. }
  apply in_map_iff in Hk as [[p lst1'] [Hp Hin1]]. cbn in Hp. subst p.
  exists lst1'. split; [exact Hin1|].
  destruct (Hs2 pool lst1 Hin) as [m [Hm Hperm]].
  destruct (Hs1 pool lst1' Hin1) as [m' [Hm' Hperm']].
  rewrite Hm in Hm'. injection Hm' as <-.
  apply (Permutation_in _ (Permutation_sym Hperm')). exact (Permutation_in _ Hperm Hin').
Qed.

Lemma grouped_lists_schedule g : is_schedule g (grouped_lists g).
Proof.
  split.
  - unfold grouped_lists. rewrite map_map. apply Permutation_refl.
  - intros pool lst1 Hin. unfold grouped_lists in Hin.
    apply in_map_iff in Hin as [[p m] [Heq Hin]]. cbn in Heq. injection Heq as <- <-.
    exists m. split; [|apply Permutation_refl].
    apply elem_of_map_to_list. apply list_elem_of_In. exact Hin.
Qed.

Lemma rev_lists_schedule g : is_schedule g (rev_lists g).
Proof.
  destruct (grouped_lists_schedule g) as [Hp Hs]. unfold rev_lists. split.
  - rewrite map_rev, map_map. cbn.
    apply (Permutation_trans (Permutation_sym (Permutation_rev _))). exact Hp.
  - intros pool lst1 Hin. apply in_rev in Hin.
    apply in_map_iff in Hin as [[p l] [Heq Hin]]. cbn in Heq. injection Heq as <- <-.
    destruct (Hs p l Hin) as [m [Hm Hperm]]. exists m. split; [exact Hm|].
    apply (Permutation_trans (Permutation_sym (Permutation_rev _))). exact Hperm.
Qed.

Lemma rerun_covered jm list0 list0' st :
  List.NoDup (sync_keys list0) ->
  (forall pool lst1 svc hl, In (pool, lst1) list0' -> In (svc, hl) lst1 ->
     exists lst1', In (pool, lst1') list0 /\ In (svc, hl) lst1') ->
  sync_publish jm list0' (sync_publish jm list0 st) = sync_publish jm list0 st.
Proof.
  intros Hnd Hcov. apply sync_publish_all_recorded.
  intros pool lst1 svc hl Hin Hin'.
  destruct (Hcov pool lst1 svc hl Hin Hin') as [lst1' [H1 H2]].
  exact (sync_publish_recorded jm list0 st Hnd pool lst1' svc hl H1 H2).
Qed.

(** C9 (amended): in [SyncAllHostList], the [SET] of a (pool, service) host
    list is issued only when its checksum (hex of its JSON) differs from the
    one recorded under the string key [pool ++ "_" ++ service], and the
    checksum is then recorded whatever the outcome of the [SET] (also when
    no Redis client is set); a run in which every recorded checksum matches
    changes nothing and issues no [SET]; and a second run over unchanged
    lists issues no [SET], in whatever order either run visits the Go maps,
    when the run's key strings are pairwise distinct.
    [GetHostListFromDockerAPI] has no such gate: every successful call
    passes its list to [SetHostListToRedis], which issues the [SET]
    whenever a Redis client is set. *)
Theorem sync_publish_checksum_gate (json_marshal : list string -> string) :
  (forall pool svc hl st,
     redisWrites (sync_services json_marshal pool [(svc, hl)] st)
     = List.app (redisWrites st)
         (if String.eqb (default "" (hostCheckSum st !! (pool +:+ "_" +:+ svc)))
                        (host_digest json_marshal hl)
             || negb (redisConnected st)
          then []
          else [(redisPrefix +:+ pool +:+ ":" +:+ svc, json_marshal hl, 3600 * 24 * 7)])) /\
  (forall pool svc hl st,
     hostCheckSum (sync_services json_marshal pool [(svc, hl)] st)
     = if String.eqb (default "" (hostCheckSum st !! (pool +:+ "_" +:+ svc)))
                     (host_digest json_marshal hl)
       then hostCheckSum st
       else <[pool +:+ "_" +:+ svc := host_digest json_marshal hl]> (hostCheckSum st)) /\
  (forall list0 st,
     (forall pool lst1 svc hl, In (pool, lst1) list0 -> In (svc, hl) lst1 ->
        default "" (hostCheckSum st !! (pool +:+ "_" +:+ svc)) = host_digest json_marshal hl) ->
     sync_publish json_marshal list0 st = st) /\
  (forall list0 list0' st, List.NoDup (sync_keys list0) ->
     (forall pool lst1 svc hl, In (pool, lst1) list0' -> In (svc, hl) lst1 ->
        exists lst1', In (pool, lst1') list0 /\ In (svc, hl) lst1') ->
     sync_publish json_marshal list0' (sync_publish json_marshal list0 st)
     = sync_publish json_marshal list0 st) /\
  (forall sprint sched1 sched2 st items,
     let g := group_hosts sprint items in
     is_schedule g (sched1 g) -> is_schedule g (sched2 g) -> List.NoDup (sync_keys (sched1 g)) ->
     fst (SyncAllHostList json_marshal sprint sched2
            (fst (SyncAllHostList json_marshal sprint sched1 st (inr items))) (inr items))
     = fst (SyncAllHostList json_marshal sprint sched1 st (inr items))) /\
  (forall sprint dockerAPI st pool name items,
     dockerAPI <> "" ->
     GetHostListFromDockerAPI json_marshal sprint dockerAPI st pool name (inr items)
     = (fst (SetHostListToRedis json_marshal st pool name (host_list sprint items)),
        inr (host_list sprint items))) /\
  (forall st pool name l,
     redisConnected st = true ->
     redisWrites (fst (SetHostListToRedis json_marshal st pool name l))
     = List.app (redisWrites st)
         [(redisPrefix +:+ pool +:+ ":" +:+ name, json_marshal l, 3600 * 24 * 7)]).
Proof.
  split; [|split; [|split; [|split; [|split; [|split]]]]].
  - intros pool svc hl st. rewrite sync_services_cons. cbn [sync_services].
    destruct (String.eqb _ _); cbn [orb].
    + rewrite app_nil_r. reflexivity.
    + unfold set_checksum, SetHostListToRedis. cbn [redisWrites].
      destruct (redisConnected st); cbn; [reflexivity|]. rewrite app_nil_r. reflexivity.
  - intros pool svc hl st. rewrite sync_services_cons. cbn [sync_services].
    destruct (String.eqb _ _); [reflexivity|].
    unfold set_checksum, SetHostListToRedis.
    destruct (redisConnected st); reflexivity.
  - intros list0 st Hall. apply sync_publish_all_recorded. exact Hall.
  - intros list0 list0' st Hnd Hcov. apply rerun_covered; assumption.
  - intros sprint sched1 sched2 st items g H1 H2 Hnd. cbn [SyncAllHostList fst].
    apply rerun_covered; [exact Hnd|].
    intros pool lst1 svc hl Hin Hin'. exact (schedule_cover g _ _ pool lst1 svc hl H1 H2 Hin Hin').
  - intros sprint dockerAPI st pool name items Hd.
    unfold GetHostListFromDockerAPI. rewrite len_lt_1.
    destruct (String.eqb_spec dockerAPI ""); [contradiction|]. reflexivity.
  - intros st pool name l Hc. unfold SetHostListToRedis. rewrite Hc. reflexivity.
Qed.

(** Witness of C9: two runs over the same containers, the second visiting
    the pools and services in the reverse order. *)
Lemma sync_publish_checksum_gate_witness :
  let jm := fun l : list string => String.concat "," l in
  let st0 := {| hostCheckSum := ∅; redisConnected := true; redisWrites := [];
                redisSetErr := fun _ => None |} in
  let st1 := fst (SyncAllHostList jm demo_sprint grouped_lists st0 (inr demo_containers2)) in
  fst (SyncAllHostList jm demo_sprint rev_lists st1 (inr demo_containers2)) = st1.
Proof.
  intros jm st0 st1.
  apply (proj1 (proj2 (proj2 (proj2 (proj2 (sync_publish_checksum_gate jm)))))
           demo_sprint grouped_lists rev_lists st0 demo_containers2);
    [apply grouped_lists_schedule | apply rev_lists_schedule |].
  vm_compute. constructor; [intros [H | [H | []]]; discriminate H|].
  constructor; [intros [H | []]; discriminate H|]. constructor; [intros []|]. constructor.
Defined.

(** Counterexample to C9 as stated: [GetHostListFromDockerAPI], called
    twice on an unchanged (empty) container list, publishes the same list
    twice. *)
Lemma sync_publish_checksum_gate_counterexample :
  let jm := fun _ : list string => "null" in
  let sp := fun _ : JVal => "" in
  let st0 := {| hostCheckSum := ∅; redisConnected := true; redisWrites := [];
                 redisSetErr := fun _ => None |} in
  let st1 := fst (GetHostListFromDockerAPI jm sp "http://docker:2375" st0 "p1" "svc" (inr [])) in
  let st2 := fst (GetHostListFromDockerAPI jm sp "http://docker:2375" st1 "p1" "svc" (inr [])) in
  redisWrites st2 = [(redisPrefix +:+ "p1:svc", "null", 604800);
                     (redisPrefix +:+ "p1:svc", "null", 604800)].
Proof. vm_compute. reflexivity. Qed.

(** The string key [pool ++ "_" ++ service] is not injective: the pairs
    ("a", "b_c") and ("a_b", "c") share the key "a_b_c", and a second run
    over the same two unchanged lists writes again. *)
Example sync_key_collision_rewrites :
  let jm := fun l : list string => String.concat "," l in
  let list0 := [("a", [("b_c", ["10.0.0.1:80"])]); ("a_b", [("c", ["10.0.0.2:80"])])] in
  let st0 := {| hostCheckSum := ∅; redisConnected := true; redisWrites := [];
                 redisSetErr := fun _ => None |} in
  List.length (redisWrites (sync_publish jm list0 (sync_publish jm list0 st0))) = 4%nat.
Proof. vm_compute. reflexivity. Qed.

(* ------------------------------------------------------------------ *)
(** ** Further properties of the client and of the host sync *)

Lemma N_of_hex_digit (n : N) :
  (n < 16)%N ->
  N_of_ascii (hex_digit n) = if (n <? 10)%N then (48 + n)%N else (87 + n)%N.
Proof. intros H. unfold hex_digit. destruct (n <? 10)%N; apply N_ascii_embedding; lia. Qed.

Lemma hex_digit_inj (n m : N) :
  (n < 16)%N -> (m < 16)%N -> hex_digit n = hex_digit m -> n = m.
Proof.
  intros Hn Hm E. apply (f_equal N_of_ascii) in E.
  rewrite !N_of_hex_digit in E by assumption.
  destruct (N.ltb_spec n 10), (N.ltb_spec m 10); lia.
Qed.

Lemma hex_encode_inj (a b : string) : hex_encode a = hex_encode b -> a = b.
Proof.
  revert b; induction a as [|c a IH]; intros [|d b] E; try discriminate; [reflexivity|].
  cbn [hex_encode] in E. injection E as E1 E2 E3.
  pose proof (N_ascii_bounded c) as Bc. pose proof (N_ascii_bounded d) as Bd.
  apply hex_digit_inj in E1; [| apply N.Div0.div_lt_upper_bound; lia
                              | apply N.Div0.div_lt_upper_bound; lia].
  apply hex_digit_inj in E2; [| apply N.mod_lt; lia | apply N.mod_lt; lia].
  assert (Ecd : N_of_ascii c = N_of_ascii d).
  { rewrite (N.div_mod (N_of_ascii c) 16), (N.div_mod (N_of_ascii d) 16) by lia.
    rewrite E1, E2. reflexivity. }
  rewrite <- (ascii_N_embedding c), <- (ascii_N_embedding d), Ecd.
  f_equal. apply IH. exact E3.
Qed.

Lemma hex_encode_length (s : string) :
  String.length (hex_encode s) = (2 * String.length s)%nat.
Proof. induction s as [|c s IH]; [reflexivity|]. cbn [hex_encode String.length]. rewrite IH. lia. Qed.

Lemma word_prefix_app (w post : string) :
  forallb is_word (list_ascii_of_string w) = true -> word_prefix post = "" ->
  word_prefix (w +:+ post) = w.
Proof.
  induction w as [|c w IH]; intros Hw Hp; [exact Hp|].
  cbn [list_ascii_of_string forallb] in Hw. apply andb_true_iff in Hw as [Hc Hw].
  rewrite append_cons. cbn [word_prefix]. rewrite Hc, IH by assumption. reflexivity.
Qed.

Lemma strip_prefix_app (p s : string) : strip_prefix p (p +:+ s) = Some s.
Proof.
  induction p as [|c p IH]; [destruct s; reflexivity|].
  rewrite append_cons. cbn [strip_prefix]. destruct (ascii_dec c c); [exact IH | congruence].
Qed.

Lemma pool_match_found (pre w post : string) :
  forallb (fun c => negb (Ascii.eqb c "p"%char)) (list_ascii_of_string pre) = true ->
  w <> "" -> forallb is_word (list_ascii_of_string w) = true -> word_prefix post = "" ->
  pool_match (pre +:+ "pool==" +:+ w +:+ post) = Some w.
Proof.
  intros Hpre Hne Hw Hp. induction pre as [|c pre IH].
  - rewrite append_nil_l.
    change ("pool==" +:+ w +:+ post) with (String "p"%char ("ool==" +:+ w +:+ post)).
    cbn [pool_match].
    change (String "p"%char ("ool==" +:+ w +:+ post)) with ("pool==" +:+ (w +:+ post)).
    rewrite strip_prefix_app, word_prefix_app by assumption.
    destruct w; [congruence | reflexivity].
  - cbn [list_ascii_of_string forallb] in Hpre. apply andb_true_iff in Hpre as [Hc Hpre].
    rewrite append_cons. cbn [pool_match].
    assert (Hs : strip_prefix "pool==" (String c (pre +:+ "pool==" +:+ w +:+ post)) = None).
    { cbn [strip_prefix]. destruct (ascii_dec "p" c) as [<-|]; [discriminate Hc | reflexivity]. }
    rewrite Hs. apply IH. exact Hpre.
Qed.

Lemma pool_match_no_p (s : string) :
  forallb (fun c => negb (Ascii.eqb c "p"%char)) (list_ascii_of_string s) = true ->
  pool_match s = None.
Proof.
  induction s as [|c s IH]; intros H; [reflexivity|].
  cbn [list_ascii_of_string forallb] in H. apply andb_true_iff in H as [Hc H].
  cbn [pool_match].
  assert (Hs : strip_prefix "pool==" (String c s) = None).
  { cbn [strip_prefix]. destruct (ascii_dec "p" c) as [<-|]; [discriminate Hc | reflexivity]. }
  rewrite Hs. apply IH. exact H.
Qed.

Lemma key_colon (p a b : string) :
  redisPrefix +:+ p +:+ ":" +:+ (a +:+ ":" +:+ b)
  = redisPrefix +:+ (p +:+ ":" +:+ a) +:+ ":" +:+ b.
Proof. rewrite !append_assoc_str. reflexivity. Qed.

(** The Redis key [prefix + pool + ":" + name] is not injective: the pairs
    ([p], [a:b]) and ([p:a], [b]) name the same key, so
    [GetHostListFromRedis] reads and [SetHostListToRedis] writes the same
    entry for both. *)
Theorem redis_key_colon_collision (json_marshal : list string -> string)
    (json_unmarshal : string -> list string * option string)
    (redis_get : string -> string + string)
    (st : SyncState) (p a b : string) (l : list string) :
  GetHostListFromRedis json_unmarshal redis_get st p (a +:+ ":" +:+ b)
  = GetHostListFromRedis json_unmarshal redis_get st (p +:+ ":" +:+ a) b /\
  SetHostListToRedis json_marshal st p (a +:+ ":" +:+ b) l
  = SetHostListToRedis json_marshal st (p +:+ ":" +:+ a) b l.
Proof.
  split.
  - unfold GetHostListFromRedis. rewrite key_colon. reflexivity.
  - unfold SetHostListToRedis. rewrite key_colon. reflexivity.
Qed.

Lemma host_list_app sp a b : host_list sp (List.app a b) = List.app (host_list sp a) (host_list sp b).
Proof.
  induction a as [|it a IH]; [reflexivity|].
  cbn [host_list List.app]. destruct (item_host sp it); rewrite IH; reflexivity.
Qed.

(** [GetHostListFromDockerAPI] fails first on an unset Docker API, passes a
    fetch error through with the state unchanged, and succeeds without
    writing when Redis is disconnected; its list is the concatenation, in
    container order, of at most one address per container. *)
Theorem GetHostListFromDockerAPI_edges (json_marshal : list string -> string)
    (sprint : JVal -> string) (dockerAPI : string) (st : SyncState) (pool name : string) :
  (dockerAPI = "" -> forall fetched,
     GetHostListFromDockerAPI json_marshal sprint dockerAPI st pool name fetched
     = (st, inl "Please Call SetDockerAPI()")) /\
  (forall e, GetHostListFromDockerAPI json_marshal sprint dockerAPI st pool name (inl e)
             = (st, inl (if String.eqb dockerAPI "" then "Please Call SetDockerAPI()" else e))) /\
  (dockerAPI <> "" -> redisConnected st = false -> forall items,
     GetHostListFromDockerAPI json_marshal sprint dockerAPI st pool name (inr items)
     = (st, inr (host_list sprint items))) /\
  (forall item, (List.length (host_list sprint [item]) <= 1)%nat) /\
  (forall items1 items2,
     host_list sprint (List.app items1 items2)
     = List.app (host_list sprint items1) (host_list sprint items2)).
Proof.
  unfold GetHostListFromDockerAPI. rewrite len_lt_1.
  split; [|split; [|split; [|split]]].
  - intros -> fetched. reflexivity.
  - intros e. destruct (String.eqb dockerAPI ""); reflexivity.
  - intros Hd Hc items. destruct (String.eqb_spec dockerAPI ""); [contradiction|].
    unfold SetHostListToRedis. rewrite Hc. reflexivity.
  - intros item. cbn [host_list]. destruct (item_host sprint item); cbn; lia.
  - intros items1 items2. apply host_list_app.
Qed.

Lemma group_item_lookup sp g item p s :
  (group_item sp g item !! p) ≫= (fun m => m !! s)
  = match item_key item, item_host sp item with
    | Some (p', s'), Some h =>
        if bool_decide ((p', s') = (p, s))
        then Some (List.app (default [] ((g !! p) ≫= (fun m => m !! s))) [h])
        else (g !! p) ≫= (fun m => m !! s)
    | _, _ => (g !! p) ≫= (fun m => m !! s)
    end.
Proof.
  unfold group_item.
  destruct (item_key item) as [[p' s']|]; [|reflexivity].
  set (list1 := if bool_decide (is_Some (g !! p')) then g else <[p' := ∅]> g).
  assert (H1 : forall q, (list1 !! q) ≫= (fun m => m !! s) = (g !! q) ≫= (fun m => m !! s)).
  { intros q. unfold list1. case_bool_decide as Hs; [reflexivity|].
    destruct (String.eq_dec p' q) as [<-|Hne].
    - rewrite lookup_insert_eq. apply eq_None_not_Some in Hs. rewrite Hs. reflexivity.
    - rewrite lookup_insert_ne by exact Hne. reflexivity. }
  destruct (item_host sp item) as [h|]; [|apply H1].
  case_bool_decide as Heq.
  - injection Heq as -> ->. rewrite lookup_insert_eq. cbn. rewrite lookup_insert_eq.
    f_equal. f_equal. rewrite <- H1. destruct (list1 !! p); reflexivity.
  - destruct (String.eq_dec p' p) as [<-|Hne].
    + rewrite lookup_insert_eq. cbn. rewrite lookup_insert_ne by congruence.
      rewrite <- H1. destruct (list1 !! p'); reflexivity.
    + rewrite lookup_insert_ne by exact Hne. apply H1.
Qed.

Lemma group_fold_lookup sp items g p s :
  (fold_left (group_item sp) items g !! p) ≫= (fun m => m !! s)
  = match (g !! p) ≫= (fun m => m !! s),
          host_list sp (filter (fun it => item_key it = Some (p, s)) items) with
    | None, [] => None
    | o, hs => Some (List.app (default [] o) hs)
    end.
Proof.
  revert g; induction items as [|it items IH]; intros g.
  - cbn. destruct ((g !! p) ≫= (fun m => m !! s)); [|reflexivity]. cbn. rewrite app_nil_r. reflexivity.
  - cbn [fold_left]. rewrite IH, group_item_lookup. rewrite filter_cons.
    destruct (item_key it) as [[p' s']|] eqn:Ek.
    + destruct (decide (Some (p', s') = Some (p, s))) as [Heq|Hne].
      * injection Heq as -> ->. rewrite bool_decide_eq_true_2 by reflexivity.
        cbn [host_list]. destruct (item_host sp it) as [h|].
        -- destruct ((g !! p) ≫= (fun m => m !! s)); cbn; rewrite <- ?app_assoc; reflexivity.
        -- reflexivity.
      * assert (Hb : bool_decide ((p', s') = (p, s)) = false)
          by (apply bool_decide_eq_false_2; congruence).
        destruct (item_host sp it); [rewrite Hb|]; reflexivity.
    + destruct (item_host sp it); reflexivity.
Qed.

Lemma group_hosts_lookup sp items p s :
  (group_hosts sp items !! p) ≫= (fun m => m !! s)
  = match host_list sp (filter (fun it => item_key it = Some (p, s)) items) with
    | [] => None
    | hs => Some hs
    end.
Proof.
  unfold group_hosts. rewrite group_fold_lookup. rewrite lookup_empty. cbn.
  destruct (host_list _ _); reflexivity.
Qed.

Lemma sync_services_writes jm pool lst1 st :
  redisConnected (sync_services jm pool lst1 st) = redisConnected st /\
  exists ws, redisWrites (sync_services jm pool lst1 st) = List.app (redisWrites st) ws /\
    Forall (fun w => exists svc hl, In (svc, hl) lst1 /\
              w = (redisPrefix +:+ pool +:+ ":" +:+ svc, jm hl, 3600 * 24 * 7)) ws /\
    (redisConnected st = false -> ws = []).
Proof.
  revert st; induction lst1 as [|[svc hl] rest IH]; intros st.
  - split; [reflexivity|]. exists []. rewrite app_nil_r. split; [reflexivity|]. split; [constructor|auto].
  - rewrite sync_services_cons.
    destruct (String.eqb _ _).
    + destruct (IH st) as [Hc [ws [Hw [Hf Hn]]]].
      split; [exact Hc|]. exists ws. split; [exact Hw|]. split; [|exact Hn].
      eapply Forall_impl; [exact Hf|]. intros w [s' [h' [Hin ->]]].
      exists s', h'. split; [right; exact Hin|reflexivity].
    + destruct (IH (set_checksum (fst (SetHostListToRedis jm st pool svc hl))
                  (pool +:+ "_" +:+ svc) (host_digest jm hl))) as [Hc [ws [Hw [Hf Hn]]]].
      rewrite Hc, Hw. unfold set_checksum, SetHostListToRedis in *.
      destruct (redisConnected st) eqn:E; cbn in *.
      * split; [rewrite ?E; reflexivity|]. exists ((redisPrefix +:+ pool +:+ ":" +:+ svc, jm hl, 3600 * 24 * 7) :: ws).
        rewrite <- app_assoc. split; [reflexivity|]. split; [|discriminate].
        constructor; [exists svc, hl; split; [left|]; reflexivity|].
        eapply Forall_impl; [exact Hf|]. intros w [s' [h' [Hin ->]]].
        exists s', h'. split; [right; exact Hin|reflexivity].
      * split; [rewrite ?E; reflexivity|]. exists ws. split; [reflexivity|]. split; [|intros _; exact (Hn E)].
        eapply Forall_impl; [exact Hf|]. intros w [s' [h' [Hin ->]]].
        exists s', h'. split; [right; exact Hin|reflexivity].
Qed.

Lemma sync_publish_writes jm list0 st :
  redisConnected (sync_publish jm list0 st) = redisConnected st /\
  exists ws, redisWrites (sync_publish jm list0 st) = List.app (redisWrites st) ws /\
    Forall (fun w => exists pool lst1 svc hl, In (pool, lst1) list0 /\ In (svc, hl) lst1 /\
              w = (redisPrefix +:+ pool +:+ ":" +:+ svc, jm hl, 3600 * 24 * 7)) ws /\
    (redisConnected st = false -> ws = []).
Proof.
  revert st; induction list0 as [|[pool lst1] rest IH]; intros st.
  - split; [reflexivity|]. exists []. rewrite app_nil_r. split; [reflexivity|]. split; [constructor|auto].
  - cbn [sync_publish].
    destruct (sync_services_writes jm pool lst1 st) as [Hc0 [w0 [Hw0 [Hf0 Hn0]]]].
    destruct (IH (sync_services jm pool lst1 st)) as [Hc [ws [Hw [Hf Hn]]]].
    split; [rewrite Hc; exact Hc0|].
    exists (List.app w0 ws). rewrite Hw, Hw0, app_assoc. split; [reflexivity|]. split.
    + apply Forall_app. split.
      * eapply Forall_impl; [exact Hf0|]. intros w [s' [h' [Hin ->]]].
        exists pool, lst1, s', h'. split; [left; reflexivity|]. split; [exact Hin|reflexivity].
      * eapply Forall_impl; [exact Hf|]. intros w [p [l [s' [h' [Hin [Hin' ->]]]]]].
        exists p, l, s', h'. split; [right; exact Hin|]. split; [exact Hin'|reflexivity].
    + intros Hf'. rewrite (Hn0 Hf'), (Hn ltac:(rewrite Hc0; exact Hf')). reflexivity.
Qed.

(** [SyncAllHostList] passes a fetch error through with the state unchanged;
    on success, in any order of its [range] loops, it reports no error,
    only appends to the [SET] commands issued, and each appended [SET] is
    the non-empty address list of one (pool, service) group under key
    [pool:service] with a one-week expiry. *)
Theorem SyncAllHostList_writes (json_marshal : list string -> string) (sprint : JVal -> string)
    sched (st : SyncState) :
  (forall e, SyncAllHostList json_marshal sprint sched st (inl e) = (st, Some e)) /\
  (forall items,
     is_schedule (group_hosts sprint items) (sched (group_hosts sprint items)) ->
     snd (SyncAllHostList json_marshal sprint sched st (inr items)) = None /\
     exists ws,
       redisWrites (fst (SyncAllHostList json_marshal sprint sched st (inr items)))
       = List.app (redisWrites st) ws /\
       Forall (fun w => exists pool svc,
                 let hs := host_list sprint
                             (filter (fun it => item_key it = Some (pool, svc)) items) in
                 hs <> [] /\
                 w = (redisPrefix +:+ pool +:+ ":" +:+ svc, json_marshal hs, 3600 * 24 * 7)) ws).
Proof.
  split; [intros e; reflexivity|]. intros items Hs. split; [reflexivity|].
  cbn [SyncAllHostList fst].
  destruct (sync_publish_writes json_marshal (sched (group_hosts sprint items)) st)
    as [_ [ws [Hw [Hf _]]]].
  exists ws. split; [exact Hw|].
  eapply Forall_impl; [exact Hf|]. intros w [pool [lst1 [svc [hl [Hin [Hin' ->]]]]]].
  exists pool, svc. cbv zeta.
  pose proof (schedule_in _ _ _ _ _ _ Hs Hin Hin') as Hl.
  rewrite group_hosts_lookup in Hl.
  destruct (host_list sprint _) as [|h hs]; [discriminate Hl|].
  injection Hl as <-. split; [discriminate|reflexivity].
Qed.

(** A sync while Redis is disconnected issues no [SET] but still records the
    checksums, so after [SetRedisHost] a rerun over the same containers, in
    any order of its loops, issues no [SET] either (when the checksum keys
    are distinct). *)
Theorem SyncAllHostList_offline_run (json_marshal : list string -> string)
    (sprint : JVal -> string) sched1 sched2 (st : SyncState)
    (items : list (list (string * JVal))) :
  let g := group_hosts sprint items in
  redisConnected st = false ->
  redisWrites (fst (SyncAllHostList json_marshal sprint sched1 st (inr items))) = redisWrites st /\
  (is_schedule g (sched1 g) -> is_schedule g (sched2 g) -> List.NoDup (sync_keys (sched1 g)) ->
   forall host,
     fst (SyncAllHostList json_marshal sprint sched2
            (SetRedisHost (fst (SyncAllHostList json_marshal sprint sched1 st (inr items))) host)
            (inr items))
     = SetRedisHost (fst (SyncAllHostList json_marshal sprint sched1 st (inr items))) host).
Proof.
  intros g Hc. cbn [SyncAllHostList fst]. unfold g. clear g. split.
  - destruct (sync_publish_writes json_marshal (sched1 (group_hosts sprint items)) st)
      as [_ [ws [Hw [_ Hn]]]].
    rewrite Hw, (Hn Hc), app_nil_r. reflexivity.
  - intros H1 H2 Hnd host. apply sync_publish_all_recorded.
    intros pool lst1 svc hl Hin Hin'. cbn [SetRedisHost hostCheckSum].
    destruct (schedule_cover _ _ _ pool lst1 svc hl H1 H2 Hin Hin') as [lst1' [Ha Hb]].
    exact (sync_publish_recorded json_marshal _ st Hnd pool lst1' svc hl Ha Hb).
Qed.

Lemma fst_mbind {A B : Type} (k : A -> M B) (m : M A) :
  fst (@mbind M M_bind A B k m) = fst (k (fst m)).
Proof. destruct m as [a t1]. cbn. destruct (k a); reflexivity. Qed.

Lemma byte_at_byte_of_Z (z : Z) : Z.of_nat (nat_of_ascii (byte_of_Z z)) = z mod 256.
Proof.
  unfold byte_of_Z, nat_of_ascii.
  pose proof (Z.mod_pos_bound z 256 ltac:(lia)) as B.
  rewrite N_ascii_embedding by lia. rewrite N_nat_Z. apply Z2N.id. lia.
Qed.

Lemma be32_bytes (n : Z) :
  0 <= n < 2 ^ 32 ->
  (n / 2 ^ 24) mod 256 * 2 ^ 24 + (n / 2 ^ 16) mod 256 * 2 ^ 16
  + (n / 2 ^ 8) mod 256 * 2 ^ 8 + n mod 256 = n.
Proof.
  intros Hn. change (2 ^ 32) with 4294967296 in Hn.
  change (2 ^ 24) with (256 * 256 * 256). change (2 ^ 16) with (256 * 256).
  change (2 ^ 8) with 256.
  rewrite <- !Z.div_div by lia.
  set (a := n / 256). set (b := a / 256). set (c := b / 256).
  assert (Hc : 0 <= c < 256).
  { unfold c, b, a. rewrite !Z.div_div by lia. split; [apply Z.div_pos; lia|].
    apply Z.div_lt_upper_bound; lia. }
  rewrite (Z.mod_small c 256 Hc).
  rewrite (Z.mod_eq b 256), (Z.mod_eq a 256), (Z.mod_eq n 256) by lia.
  fold a. fold b. fold c. lia.
Qed.

Lemma get_append_r (a b : string) (i : nat) :
  String.get (String.length a + i) (a +:+ b) = String.get i b.
Proof. induction a as [|c a IH]; [reflexivity|]. rewrite append_cons. exact IH. Qed.

Lemma u32_be_length (z : Z) : String.length (u32_be z) = 4%nat.
Proof. reflexivity. Qed.

Lemma be32_at_u32_be (a rest : string) (n : Z) :
  0 <= n < 2 ^ 32 ->
  be32_at (String.length a) (a +:+ u32_be n +:+ rest) = n.
Proof.
  intros Hn. unfold be32_at, byte_at.
  replace (String.length a) with (String.length a + 0)%nat at 1 by lia.
  rewrite !get_append_r. unfold u32_be. cbn [String.get append].
  rewrite !append_cons. cbn [String.get].
  rewrite !byte_at_byte_of_Z. apply be32_bytes. exact Hn.
Qed.

Lemma header_bytes_split (h : Header) :
  header_bytes h
  = (u32_be (h_MagicNumber h) +:+ u32_be (h_Id h) +:+ h_Provider h +:+ h_Token h
     +:+ h_Packager h) +:+ u32_be (h_BodyLength h).
Proof. unfold header_bytes. rewrite !append_assoc_str. reflexivity. Qed.


Lemma append_nil_r (s : string) : s +:+ "" = s.
Proof. induction s as [|c s IH]; [reflexivity|]. rewrite append_cons, IH. reflexivity. Qed.

Lemma len_append (a b : string) : len (a +:+ b) = len a + len b.
Proof. unfold len. rewrite length_append_str. lia. Qed.

Lemma header_prefix_length (h : Header) :
  String.length (h_Provider h) = 28%nat -> String.length (h_Token h) = 32%nat ->
  String.length (h_Packager h) = 8%nat ->
  String.length (u32_be (h_MagicNumber h) +:+ u32_be (h_Id h) +:+ h_Provider h
                 +:+ h_Token h +:+ h_Packager h) = 76%nat.
Proof. intros H1 H2 H3. rewrite !length_append_str, !u32_be_length, H1, H2, H3. reflexivity. Qed.

Lemma header_bytes_length (h : Header) :
  String.length (h_Provider h) = 28%nat -> String.length (h_Token h) = 32%nat ->
  String.length (h_Packager h) = 8%nat ->
  String.length (header_bytes h) = 80%nat.
Proof.
  intros H1 H2 H3. rewrite header_bytes_split, length_append_str, header_prefix_length by assumption.
  reflexivity.
Qed.

Lemma claimed_body_length_frame (h : Header) (n : Z) (x : string) :
  String.length (h_Provider h) = 28%nat -> String.length (h_Token h) = 32%nat ->
  String.length (h_Packager h) = 8%nat -> 0 <= n < 2 ^ 32 ->
  claimed_body_length (header_bytes (set_body_length h n) +:+ x) = n.
Proof.
  intros H1 H2 H3 Hn. unfold claimed_body_length.
  assert (L : String.length (header_bytes (set_body_length h n)) = 80%nat)
    by (apply header_bytes_length; assumption).
  change (Z.to_nat (ProtocolLength + PackagerLength)) with 80%nat.
  rewrite <- L, substring_append_l.
  unfold header_init. cbn [h_BodyLength].
  rewrite header_bytes_split. cbn [set_body_length h_MagicNumber h_Id h_Provider h_Token h_Packager h_BodyLength].
  rewrite <- (header_prefix_length h H1 H2 H3).
  rewrite <- (append_nil_r (u32_be n)).
  apply be32_at_u32_be. exact Hn.
Qed.

Lemma body_buffer_frame (h : Header) (n : Z) (x : string) :
  String.length (h_Provider h) = 28%nat -> String.length (h_Token h) = 32%nat ->
  String.length (h_Packager h) = 8%nat ->
  body_buffer (header_bytes (set_body_length h n) +:+ x) = x.
Proof.
  intros H1 H2 H3. unfold body_buffer.
  assert (L : String.length (header_bytes (set_body_length h n)) = 80%nat)
    by (apply header_bytes_length; assumption).
  change (Z.to_nat (ProtocolLength + PackagerLength)) with 80%nat.
  rewrite length_append_str, L.
  replace (80 + String.length x - 80)%nat with (String.length x) by lia.
  rewrite <- L at 1. rewrite substring_append_r. apply substring_self.
Qed.

Lemma len_header_frame (h : Header) (n : Z) (x : string) :
  String.length (h_Provider h) = 28%nat -> String.length (h_Token h) = 32%nat ->
  String.length (h_Packager h) = 8%nat ->
  len (header_bytes (set_body_length h n) +:+ x) = 80 + len x.
Proof.
  intros H1 H2 H3. rewrite len_append. unfold len at 1.
  rewrite header_bytes_length by assumption. reflexivity.
Qed.

(** Bytes past the claimed body length are kept: [readResponse] decodes
    [allBody[ProtocolLength+PackagerLength:]], everything from byte 80 on,
    and the claimed length is only a lower bound; so a well-formed frame
    followed by trailing bytes [extra] decodes exactly like the frame whose
    header claims [body ++ extra]. *)
Theorem readResponse_trailing_bytes (pk : Packagers) (client : Client) (h : Header)
    (body extra : string) (ret : option Value) :
  String.length (h_Provider h) = 28%nat -> String.length (h_Token h) = 32%nat ->
  String.length (h_Packager h) = 8%nat ->
  len body + len extra + PackagerLength < 2 ^ 32 ->
  let framed := fun b => header_bytes (set_body_length h (len b + PackagerLength)) +:+ b in
  body_buffer (framed body +:+ extra) = body +:+ extra /\
  readResponse pk client (framed body +:+ extra) None
  = readResponse pk client (framed (body +:+ extra)) None /\
  snd (readResponse pk client (framed body +:+ extra) ret)
  = snd (readResponse pk client (framed (body +:+ extra)) ret) /\
  option_map kind (fst (readResponse pk client (framed body +:+ extra) ret))
  = option_map kind (fst (readResponse pk client (framed (body +:+ extra)) ret)).
Proof.
  intros H1 H2 H3 Hlt framed. unfold framed. rewrite <- append_assoc_str.
  pose proof (len_nonneg body). pose proof (len_nonneg extra).
  assert (Hb1 : body_buffer (header_bytes (set_body_length h (len body + PackagerLength))
                 +:+ (body +:+ extra)) = body +:+ extra) by (apply body_buffer_frame; assumption).
  assert (Hb2 : body_buffer (header_bytes (set_body_length h (len (body +:+ extra) + PackagerLength))
                 +:+ (body +:+ extra)) = body +:+ extra) by (apply body_buffer_frame; assumption).
  rewrite len_append in Hb2 |- *.
  assert (G : forall n, 0 <= n - PackagerLength <= len body + len extra ->
     ProtocolLength + PackagerLength
       <= len (header_bytes (set_body_length h n) +:+ (body +:+ extra)) /\
     uint32 (claimed_body_length (header_bytes (set_body_length h n) +:+ (body +:+ extra))
             - PackagerLength)
     <= uint32 (len (header_bytes (set_body_length h n) +:+ (body +:+ extra))
                - (ProtocolLength + PackagerLength))).
  { intros n Hn. rewrite len_header_frame, len_append by assumption.
    rewrite claimed_body_length_frame
      by (try assumption; unfold PackagerLength in *; lia).
    unfold ProtocolLength, PackagerLength in *.
    rewrite !uint32_small by lia. lia. }
  destruct (G (len body + PackagerLength)) as [G1 G2]; [unfold PackagerLength; lia|].
  destruct (G (len body + len extra + PackagerLength)) as [G3 G4]; [unfold PackagerLength; lia|].
  rewrite (readResponse_guards_pass pk client _ None G1 G2),
          (readResponse_guards_pass pk client _ None G3 G4),
          (readResponse_guards_pass pk client _ ret G1 G2),
          (readResponse_guards_pass pk client _ ret G3 G4), Hb1, Hb2.
  split; [reflexivity|].
  destruct (unpack_response pk (Packager (c_Opt client)) (body +:+ extra)) as [e|response];
    [split; [|split]; reflexivity|].
  destruct (negb (Status response =? ERR_OKEY)); [split; [|split]; reflexivity|].
  split; [reflexivity|].
  destruct ret as [v|]; [|split; reflexivity].
  destruct (pack_value pk (Packager (c_Opt client)) (Retval response)) as [e|pd];
    [split; reflexivity|].
  destruct (unpack_value pk (Packager (c_Opt client)) pd v) as [v' [e|]]; split; reflexivity.
Qed.

(** [readResponse] changes the caller's target only after the response has
    decoded, carries status OK and its retval has been re-packed; and with no
    target the result depends on the packager only through its response
    decoder. *)
Theorem readResponse_target_written_after_decode (pk : Packagers) (client : Client)
    (allBody : string) (ret : option Value) :
  (snd (readResponse pk client allBody ret) <> ret ->
   exists v response pd,
     ret = Some v /\
     unpack_response pk (Packager (c_Opt client)) (body_buffer allBody) = inr response /\
     Status response = ERR_OKEY /\
     pack_value pk (Packager (c_Opt client)) (Retval response) = inr pd /\
     snd (readResponse pk client allBody ret)
     = Some (fst (unpack_value pk (Packager (c_Opt client)) pd v))) /\
  (forall pk', unpack_response pk' = unpack_response pk ->
   readResponse pk' client allBody None = readResponse pk client allBody None).
Proof.
  split.
  - intros Hne. unfold readResponse in *. cbv zeta in *.
    destruct (len allBody <? ProtocolLength + PackagerLength); [contradiction|].
    destruct (uint32 _ <? uint32 _); [contradiction|].
    fold (body_buffer allBody) in *.
    destruct (unpack_response pk _ (body_buffer allBody)) as [e|response] eqn:Eu; [contradiction|].
    destruct (negb (Status response =? ERR_OKEY)) eqn:Es; [contradiction|].
    destruct ret as [v|]; [|contradiction].
    destruct (pack_value pk _ (Retval response)) as [e|pd] eqn:Ep; [contradiction|].
    exists v, response, pd. split; [reflexivity|]. split; [first [reflexivity | exact Eu]|].
    split; [apply negb_false_iff, Z.eqb_eq in Es; exact Es|]. split; [first [reflexivity | exact Ep]|].
    rewrite ?Eu, ?Es, ?Ep.
    destruct (unpack_value pk _ pd v) as [v' [e|]]; reflexivity.
  - intros pk' Hu. unfold readResponse. rewrite Hu. reflexivity.
Qed.

Lemma substring_short (s : string) (n : nat) :
  (String.length s <= n)%nat -> substring 0 n s = s.
Proof.
  revert n; induction s as [|c s IH]; intros n Hn; [destruct n; reflexivity|].
  destruct n as [|n]; [cbn in Hn; lia|]. cbn. rewrite IH by (cbn in Hn; lia). reflexivity.
Qed.

Lemma copy_fixed_substring (n : nat) (s : string) : copy_fixed n (substring 0 n s) = copy_fixed n s.
Proof.
  revert s; induction n as [|n IH]; intros s; [reflexivity|].
  destruct s as [|c s]; [reflexivity|]. cbn. rewrite IH. reflexivity.
Qed.

Lemma sendPackager_eq (name : string) :
  (if Z.of_nat (String.length name) <? PackagerLength then name
   else substring 0 (Z.to_nat PackagerLength) name) = substring 0 8 name.
Proof.
  destruct (Z.ltb_spec (Z.of_nat (String.length name)) PackagerLength) as [H|H]; [|reflexivity].
  symmetry. apply substring_short. unfold PackagerLength in H. lia.
Qed.

(** [packRequest] reads only the first 8 bytes of the codec name; on success
    the header's packager field is the name copied into 8 bytes and every
    other field of the request is kept. *)
Theorem packRequest_codec_name (pk : Packagers) (c1 c2 : Client) (r : Request) :
  (substring 0 8 (Packager (c_Opt c1)) = substring 0 8 (Packager (c_Opt c2)) ->
   packRequest pk c1 r = packRequest pk c2 r) /\
  (forall r' pack, packRequest pk c1 r = inr (r', pack) ->
   h_Packager (r_Protocol r') = StrToFixedBytes (Packager (c_Opt c1)) 8 /\
   String.length (h_Packager (r_Protocol r')) = 8%nat /\
   r_Id r' = r_Id r /\ r_Method r' = r_Method r /\ r_Params r' = r_Params r /\
   h_MagicNumber (r_Protocol r') = h_MagicNumber (r_Protocol r) /\
   h_Id (r_Protocol r') = h_Id (r_Protocol r) /\
   h_Provider (r_Protocol r') = h_Provider (r_Protocol r) /\
   h_Token (r_Protocol r') = h_Token (r_Protocol r) /\
   h_BodyLength (r_Protocol r') = h_BodyLength (r_Protocol r)).
Proof.
  unfold packRequest. rewrite !sendPackager_eq. split.
  - intros E. rewrite E. reflexivity.
  - intros r' pack H.
    destruct (pack_request pk _ _) as [e|p]; [discriminate|].
    injection H as <- _. cbn [r_Protocol h_Packager r_Id r_Method r_Params h_MagicNumber h_Id h_Provider h_Token h_BodyLength].
    unfold fill8. rewrite copy_fixed_substring, StrToFixedBytes_copy.
    rewrite copy_fixed_length. repeat split; reflexivity.
Qed.



Lemma group_item_pool sp g item p :
  is_Some (group_item sp g item !! p) <->
  is_Some (g !! p) \/ exists s, item_key item = Some (p, s).
Proof.
  unfold group_item.
  destruct (item_key item) as [[p' s']|].
  - set (list1 := if bool_decide (is_Some (g !! p')) then g else <[p' := ∅]> g).
    assert (H1 : forall q, is_Some (list1 !! q) <-> is_Some (g !! q) \/ q = p').
    { intros q. unfold list1. case_bool_decide as Hs.
      - split; [tauto|]. intros [H| ->]; [exact H|exact Hs].
      - destruct (String.eq_dec p' q) as [<-|Hne].
        + rewrite lookup_insert_eq. split; [tauto|]. intros _. eexists; reflexivity.
        + rewrite lookup_insert_ne by exact Hne. split; [tauto|]. intros [H|H]; [exact H|congruence]. }
    assert (H2 : is_Some (list1 !! p) <-> is_Some (g !! p) \/ exists s, Some (p', s') = Some (p, s)).
    { rewrite H1. split.
      - intros [H| ->]; [left; exact H|right; exists s'; reflexivity].
      - intros [H|[s E]]; [left; exact H|injection E as -> _; right; reflexivity]. }
    destruct (item_host sp item) as [h|]; [|exact H2].
    destruct (String.eq_dec p' p) as [<-|Hne].
    + rewrite lookup_insert_eq. split; [intros _; right; exists s'; reflexivity|].
      intros _. eexists; reflexivity.
    + rewrite lookup_insert_ne by exact Hne. exact H2.
  - split; [tauto|]. intros [H|[s E]]; [exact H|discriminate E].
Qed.

Lemma group_fold_pool sp items g p :
  is_Some (fold_left (group_item sp) items g !! p) <->
  is_Some (g !! p) \/ exists it s, In it items /\ item_key it = Some (p, s).
Proof.
  revert g; induction items as [|it items IH]; intros g; cbn [fold_left].
  - split; [tauto|]. intros [H|(it & s & [] & _)]; exact H.
  - rewrite IH, group_item_pool. split.
    + intros [[H|[s E]]|(it' & s & Hin & E)].
      * left; exact H.
      * right. exists it, s. split; [left; reflexivity|exact E].
      * right. exists it', s. split; [right; exact Hin|exact E].
    + intros [H|(it' & s & [<-|Hin] & E)].
      * left; left; exact H.
      * left; right; exists s; exact E.
      * right. exists it', s. split; [exact Hin|exact E].
Qed.

(** After the grouping loop, the list of a (pool, service) pair is the
    addresses of the containers with that key, in input order, and is absent
    when there are none; a pool entry exists exactly when some container
    carries that pool, even if none of its containers has an address. *)
Theorem group_hosts_per_service (sprint : JVal -> string)
    (items : list (list (string * JVal))) (p s : string) :
  (group_hosts sprint items !! p) ≫= (fun m => m !! s)
  = match host_list sprint (filter (fun it => item_key it = Some (p, s)) items) with
    | [] => None
    | hs => Some hs
    end /\
  (is_Some (group_hosts sprint items !! p) <->
   exists it s', In it items /\ item_key it = Some (p, s')).
Proof.
  split; [apply group_hosts_lookup|].
  unfold group_hosts. rewrite group_fold_pool, lookup_empty.
  split; [intros [H|H]; [destruct H as [? H]; discriminate H|exact H]|intros H; right; exact H].
Qed.

(** The checksum stored per list is the hex encoding of its JSON: two lists
    get the same checksum exactly when their JSON encodings are equal, and the
    checksum is twice as long as the JSON. *)
Theorem host_digest_injective (json_marshal : list string -> string) (l1 l2 : list string) :
  (host_digest json_marshal l1 = host_digest json_marshal l2 <->
   json_marshal l1 = json_marshal l2) /\
  String.length (host_digest json_marshal l1) = (2 * String.length (json_marshal l1))%nat.
Proof.
  unfold host_digest. split; [split|].
  - apply hex_encode_inj.
  - intros E. rewrite E. reflexivity.
  - apply hex_encode_length.
Qed.

(** The pool name is normalised to the word after the first [pool==]
    when the text before it has no [p], and a constraint without any [p]
    is kept as it is. *)
Theorem normalize_pool_extracts_word (pre w post : string) :
  (forallb (fun c => negb (Ascii.eqb c "p"%char)) (list_ascii_of_string pre) = true ->
   w <> "" -> forallb is_word (list_ascii_of_string w) = true -> word_prefix post = "" ->
   normalize_pool (pre +:+ "pool==" +:+ w +:+ post) = w) /\
  (forallb (fun c => negb (Ascii.eqb c "p"%char)) (list_ascii_of_string pre) = true ->
   normalize_pool pre = pre).
Proof.
  split.
  - intros H1 H2 H3 H4. unfold normalize_pool. rewrite pool_match_found by assumption. reflexivity.
  - intros H. unfold normalize_pool. rewrite pool_match_no_p by exact H. reflexivity.
Qed.

(** On the HTTP path, a request that cannot be built is returned as is with
    no traffic; a gzip failure is a network error after only the read
    timeout was set; a transport failure is a network error; in each case the
    target is returned unchanged. *)
Theorem Call_network_errors (env : Env) (pk : Packagers) (client : Client) (id : Z)
    (method : string) (ret : option Value) (params : option (list Value)) :
  (net client = "http" \/ net client = "https") ->
  (forall e, http_post_buffer pk client id method params = inl e ->
     Call env pk client id method ret params = ((Some e, ret), [])) /\
  (forall r2 pb post, http_post_buffer pk client id method params = inr (r2, pb, post) ->
   (forall e, RequestGzip (c_Opt client) = true -> gzip_compress env post = inl e ->
      Call env pk client id method ret params
      = ((Some (NewError ErrorNetwork e), ret),
         [ESetReadTimeout (DNSCache (c_Opt client)) (Timeout (c_Opt client))])) /\
   (forall req e, http_request env client post = inr req ->
      fst (DoTimeout env (DNSCache (c_Opt client)) (Timeout (c_Opt client)) req) = inl e ->
      fst (Call env pk client id method ret params) = (Some (NewError ErrorNetwork e), ret))).
Proof.
  intros Hnet.
  assert (Hh : (String.eqb (net client) "http" || String.eqb (net client) "https")%bool = true)
    by (destruct Hnet as [-> | ->]; reflexivity).
  unfold Call. rewrite Hh. unfold httpHandler. split.
  - intros e Hb. rewrite Hb. reflexivity.
  - intros r2 pb post Hb. rewrite Hb. split.
    + intros e Hg Hz. unfold http_request. rewrite Hg, Hz. reflexivity.
    + intros req e Hr Hd. rewrite fst_mbind. cbn [fst emit]. rewrite Hr.
      rewrite fst_mbind, Hd. reflexivity.
Qed.

(** *** Instances of the further properties *)

Lemma readResponse_trailing_bytes_witness :
  readResponse demo_pk (demo_client false) (frame "hi" +:+ "zz") None
  = readResponse demo_pk (demo_client false)
      (header_bytes (set_body_length NewHeader (len ("hi" +:+ "zz") + PackagerLength))
       +:+ ("hi" +:+ "zz")) None.
Proof.
  refine (proj1 (proj2 (readResponse_trailing_bytes demo_pk (demo_client false) NewHeader
                          "hi" "zz" None _ _ _ _))); vm_compute; reflexivity.
Defined.

Lemma readResponse_target_written_after_decode_witness :
  exists v response pd,
    Some VNil = Some v /\
    unpack_response demo_pk (Packager (c_Opt (demo_client false))) (body_buffer (frame "hi"))
      = inr response /\
    Status response = ERR_OKEY /\
    pack_value demo_pk (Packager (c_Opt (demo_client false))) (Retval response) = inr pd /\
    snd (readResponse demo_pk (demo_client false) (frame "hi") (Some VNil))
    = Some (fst (unpack_value demo_pk (Packager (c_Opt (demo_client false))) pd v)).
Proof.
  apply (proj1 (readResponse_target_written_after_decode demo_pk (demo_client false)
                  (frame "hi") (Some VNil))).
  vm_compute. discriminate.
Defined.

Lemma packRequest_codec_name_witness :
  packRequest demo_pk (named_client "msgpack-v2") (NewRequest 1)
  = packRequest demo_pk (named_client "msgpack-v3") (NewRequest 1).
Proof.
  apply (proj1 (packRequest_codec_name demo_pk (named_client "msgpack-v2")
                  (named_client "msgpack-v3") (NewRequest 1))).
  vm_compute. reflexivity.
Defined.

Lemma Call_network_errors_witness :
  Call (broken_env false true) demo_pk gzip_client 7 "Echo" None None
  = ((Some (NewError ErrorNetwork "gzip: write error"), None), [ESetReadTimeout false 2000]) /\
  fst (Call (broken_env true false) demo_pk (demo_client false) 7 "Echo" None None)
  = (Some (NewError ErrorNetwork "dial tcp: connection refused"), None).
Proof.
  split.
  - destruct (http_post_buffer demo_pk gzip_client 7 "Echo" None) as [e|[[r2 pb] post]] eqn:Hb;
      [vm_compute in Hb; discriminate Hb|].
    apply (proj1 (proj2 (Call_network_errors (broken_env false true) demo_pk gzip_client 7
                           "Echo" None None (or_introl eq_refl)) r2 pb post Hb)
                 "gzip: write error"); reflexivity.
  - destruct (http_post_buffer demo_pk (demo_client false) 7 "Echo" None)
      as [e|[[r2 pb] post]] eqn:Hb; [vm_compute in Hb; discriminate Hb|].
    destruct (http_request (broken_env true false) (demo_client false) post) as [e|req] eqn:Hr;
      [vm_compute in Hr; discriminate Hr|].
    apply (proj2 (proj2 (Call_network_errors (broken_env true false) demo_pk (demo_client false)
                           7 "Echo" None None (or_introl eq_refl)) r2 pb post Hb) req);
      [exact Hr | vm_compute; reflexivity].
Defined.

Lemma normalize_pool_extracts_word_witness :
  normalize_pool ("[" +:+ dq +:+ "pool==" +:+ "web" +:+ dq +:+ "]") = "web".
Proof.
  apply (proj1 (normalize_pool_extracts_word ("[" +:+ dq) "web" (dq +:+ "]")));
    vm_compute; first [reflexivity | discriminate].
Defined.

Lemma SyncAllHostList_writes_witness :
  let st0 := {| hostCheckSum := ∅; redisConnected := true; redisWrites := [];
                 redisSetErr := fun _ => None |} in
  exists ws,
    redisWrites (fst (SyncAllHostList (String.concat ",") demo_sprint rev_lists st0
                        (inr demo_containers2)))
    = List.app (redisWrites st0) ws /\
    Forall (fun w => exists pool svc,
              let hs := host_list demo_sprint
                          (filter (fun it => item_key it = Some (pool, svc)) demo_containers2) in
              hs <> [] /\
              w = (redisPrefix +:+ pool +:+ ":" +:+ svc, String.concat "," hs, 3600 * 24 * 7)) ws.
Proof.
  intros st0.
  exact (proj2 (proj2 (SyncAllHostList_writes (String.concat ",") demo_sprint rev_lists st0)
                  demo_containers2 (rev_lists_schedule _))).
Defined.

Lemma SyncAllHostList_offline_run_witness :
  let st0 := {| hostCheckSum := ∅; redisConnected := false; redisWrites := [];
                 redisSetErr := fun _ => None |} in
  let st1 := fst (SyncAllHostList (String.concat ",") demo_sprint grouped_lists st0
                    (inr demo_containers2)) in
  fst (SyncAllHostList (String.concat ",") demo_sprint rev_lists (SetRedisHost st1 "redis:6379")
         (inr demo_containers2))
  = SetRedisHost st1 "redis:6379".
Proof.
  intros st0 st1.
  apply (proj2 (SyncAllHostList_offline_run (String.concat ",") demo_sprint grouped_lists
                  rev_lists st0 demo_containers2 eq_refl));
    [apply grouped_lists_schedule | apply rev_lists_schedule |].
  vm_compute. constructor; [intros [H | [H | []]]; discriminate H|].
  constructor; [intros [H | []]; discriminate H|]. constructor; [intros []|]. constructor.
Defined.

Lemma GetHostListFromDockerAPI_edges_witness :
  let st0 := {| hostCheckSum := ∅; redisConnected := false; redisWrites := [];
                 redisSetErr := fun _ => None |} in
  GetHostListFromDockerAPI (String.concat ",") demo_sprint "http://docker:2375" st0 "web" "api"
    (inr demo_containers)
  = (st0, inr (host_list demo_sprint demo_containers)).
Proof.
  intros st0.
  apply (proj1 (proj2 (proj2 (GetHostListFromDockerAPI_edges (String.concat ",") demo_sprint
                                "http://docker:2375" st0 "web" "api"))));
    [discriminate | reflexivity].
Defined.
